(** * GoTree: the ref/layer graph and its mount lifecycle

    A shallow embedding of [main.go] of the gotree repository: the ref
    store, the overlay composition, mount, unmount with retries, and
    guarded deletion, with the properties the specification states about
    them; then commit, the metadata operations, the opening of a
    repository, the dispatch of the commands and the unit of a size,
    with further properties read off the code.

    Modelling conventions.
    - The repository directory is a record of finite maps: [refs] holds
      the decoded [refs/<name>.json] files keyed by [<name>], [mounts] the
      decoded [mounts/<base>.json] files keyed by [<base>], [layers] and
      [work] the sub-directories of [layers/] and [work/] keyed by layer
      id.  Names are plain file-name stems, as [validateRefName] enforces
      for every ref that is created.  Encoding a record and decoding it
      gives the record back.
    - Reading what is there succeeds: a file that cannot be read or
      decoded is the same as an absent one for [getRef], [ListRefs] and
      [IsMountedRef], so only decodable files are kept, and listing a
      directory of the repository does not fail.  [/proc/mounts] may be
      unreadable ([procfs]) and the working directory unknown ([cwd]).
    - Everything outside the repository is the operating system: the live
      mount table, the clock, and a [Fate] that decides, from the history
      of calls, whether a mutating call succeeds and what a program
      prints.  Every call is appended to the [trace] with its outcome.
    - A loop without a bound in the source ([buildLowerDirs], the walk of
      the [size] command) is given fuel, and [None] stands for "has not
      returned yet". *)

From Stdlib Require Import ZArith String Ascii List Bool Lia.
From stdpp Require Import base option list gmap sets strings pretty relations.

Local Open Scope Z_scope.

(** ** Go's [strings] package *)

Module strings.

(** [strings.HasPrefix] *)
Definition HasPrefix (s pre : string) : bool := String.prefix pre s.

(** [strings.Contains]: [substr] occurs somewhere in [s]. *)
Fixpoint Contains (s substr : string) : bool :=
  HasPrefix s substr ||
  match s with
  | EmptyString => false
  | String _ s' => Contains s' substr
  end.

Fixpoint mem_ascii (c : ascii) (chars : string) : bool :=
  match chars with
  | EmptyString => false
  | String d chars' => if Ascii.eqb c d then true else mem_ascii c chars'
  end.

(** [strings.ContainsAny]: some byte of [s] is in [chars] (the sets
    used here are ASCII, so bytes and code points agree). *)
Fixpoint ContainsAny (s chars : string) : bool :=
  match s with
  | EmptyString => false
  | String c s' => mem_ascii c chars || ContainsAny s' chars
  end.

(** [strings.Join] *)
Definition Join (elems : list string) (sep : string) : string :=
  String.concat sep elems.

(** [strings.Fields] on ASCII white space. *)
Definition Fields (s : string) : list string := String.words s.

End strings.

(** ** Go's [path/filepath] package, Unix flavour *)

Module filepath.

Definition slash : ascii := "/"%char.

(** The components of a path between separators, empty ones included. *)
Fixpoint split_go (cur : string) (s : string) : list string :=
  match s with
  | EmptyString => [String.rev cur]
  | String c s' =>
      if Ascii.eqb c slash then String.rev cur :: split_go EmptyString s'
      else split_go (String c cur) s'
  end.
Definition split (s : string) : list string := split_go EmptyString s.

Definition IsAbs (path : string) : bool := strings.HasPrefix path "/".

(** One step of [Clean] on the stack of components kept so far
    (innermost first): [.] and empty components vanish, [..] removes
    the component before it, is dropped at the root and is kept at the
    start of a relative path. *)
Definition clean_step (rooted : bool) (stack : list string) (c : string)
  : list string :=
  if String.eqb c "" then stack
  else if String.eqb c "." then stack
  else if String.eqb c ".." then
    match stack with
    | top :: rest =>
        if String.eqb top ".." then c :: stack else rest
    | [] => if rooted then [] else [c]
    end
  else c :: stack.

(** [filepath.Clean] *)
Definition Clean (path : string) : string :=
  let rooted := IsAbs path in
  let stack := fold_left (clean_step rooted) (split path) [] in
  let body := strings.Join (rev stack) "/" in
  let out := if rooted then "/" +:+ body else body in
  if String.eqb out "" then "." else out.

(** [filepath.Join]: the elements from the first non-empty one on,
    joined by a separator and cleaned; [""] when all are empty. *)
Fixpoint Join (elem : list string) : string :=
  match elem with
  | [] => ""
  | e :: rest =>
      if String.eqb e "" then Join rest
      else Clean (strings.Join elem "/")
  end.

(** [filepath.Abs]; [wd] is the working directory, [None] when
    [os.Getwd] fails. *)
Definition Abs (wd : option string) (path : string) : option string :=
  if IsAbs path then Some (Clean path)
  else match wd with
       | Some d => Some (Join [d; path])
       | None => None
       end.

Fixpoint drop_trailing_slashes (rev_path : string) : string :=
  match rev_path with
  | String c s' => if Ascii.eqb c slash then drop_trailing_slashes s' else rev_path
  | EmptyString => EmptyString
  end.

Fixpoint take_until_slash (rev_path : string) : string :=
  match rev_path with
  | String c s' => if Ascii.eqb c slash then EmptyString
                   else String c (take_until_slash s')
  | EmptyString => EmptyString
  end.

(** [filepath.Base] *)
Definition Base (path : string) : string :=
  if String.eqb path "" then "."
  else
    let r := drop_trailing_slashes (String.rev path) in
    let b := String.rev (take_until_slash r) in
    if String.eqb b "" then "/" else b.

End filepath.

(** ** Data model *)

(** An operating-system error number. *)
Abbreviation Errno := Z (only parsing).
Definition EPERM : Errno := 1.
Definition ENOENT : Errno := 2.
Definition EBUSY : Errno := 16.
Definition ENODEV : Errno := 19.
Definition EINVAL : Errno := 22.

(** [os.IsNotExist] *)
Definition IsNotExist (e : Errno) : bool := e =? ENOENT.

(** [type Ref struct]; [CreatedAt] in nanoseconds, a nil [Metadata] map
    is the empty map. *)
Record Ref := mkRef {
  Name : string;
  Parent : string;
  LayerID : string;
  CreatedAt : Z;
  Metadata : gmap string string;
}.

(** [type GoTree struct] *)
Record GoTree := mkGoTree { repoPath : string }.

(** One line of the live mount table. *)
Record MountEntry := mkMountEntry {
  me_source : string;
  me_target : string;
  me_fstype : string;
  me_opts : string;
}.

(** The calls that leave the process. *)
Inductive Call :=
| MkdirAll (path : string)
| WriteFile (path : string)
| Remove (path : string)
| RemoveAll (path : string)
| SysMount (source target fstype : string) (flags : Z) (data : string)
| SysUnmount (target : string) (flags : Z)
| SysSync
| Sleep (d : Z)
| Exec (argv : list string).

(** A call with its outcome: [None] is success. *)
Abbreviation Event := (Call * option Errno)%type.

(** What the operating system answers, given everything asked so far. *)
Record Fate := mkFate {
  errno_of : list Event -> Call -> option Errno;
  stdout_of : list Event -> Call -> string;
}.

Record World := mkWorld {
  refs : gmap string Ref;
  layers : gset string;
  work : gset string;
  mounts : gmap string (gmap string string);
  mtab : list MountEntry;
  procfs : bool;
  cwd : option string;
  clock : Z;
  trace : list Event;
}.

Definition set_refs (f : gmap string Ref -> gmap string Ref) (w : World) : World :=
  mkWorld (f (refs w)) (layers w) (work w) (mounts w) (mtab w) (procfs w)
          (cwd w) (clock w) (trace w).
Definition set_layers (f : gset string -> gset string) (w : World) : World :=
  mkWorld (refs w) (f (layers w)) (work w) (mounts w) (mtab w) (procfs w)
          (cwd w) (clock w) (trace w).
Definition set_work (f : gset string -> gset string) (w : World) : World :=
  mkWorld (refs w) (layers w) (f (work w)) (mounts w) (mtab w) (procfs w)
          (cwd w) (clock w) (trace w).
Definition set_mounts (f : gmap string (gmap string string) -> gmap string (gmap string string))
    (w : World) : World :=
  mkWorld (refs w) (layers w) (work w) (f (mounts w)) (mtab w) (procfs w)
          (cwd w) (clock w) (trace w).
Definition set_mtab (f : list MountEntry -> list MountEntry) (w : World) : World :=
  mkWorld (refs w) (layers w) (work w) (mounts w) (f (mtab w)) (procfs w)
          (cwd w) (clock w) (trace w).
Definition set_clock (f : Z -> Z) (w : World) : World :=
  mkWorld (refs w) (layers w) (work w) (mounts w) (mtab w) (procfs w)
          (cwd w) (f (clock w)) (trace w).
Definition record_event (e : Event) (w : World) : World :=
  mkWorld (refs w) (layers w) (work w) (mounts w) (mtab w) (procfs w)
          (cwd w) (clock w) (trace w ++ [e]).

(** The errors the program builds, one constructor per message; [%w]
    wraps the error underneath. *)
Inductive Err :=
| ErrEmptyName                       (* ref name cannot be empty *)
| ErrInvalidChars                    (* ref name contains invalid characters *)
| ErrCreateLayer (inner : Err)       (* failed to create layer: %w *)
| ErrParentNotFound (inner : Err)    (* parent ref not found: %w *)
| ErrRefNotFound (inner : Err)       (* ref not found: %w *)
| ErrCreateMountPoint (inner : Err)  (* failed to create mount point: %w *)
| ErrMountPointInUse                 (* mount point already in use *)
| ErrCreateWorkDir (inner : Err)     (* failed to create work directory: %w *)
| ErrNotMounted                      (* mount point not mounted *)
| ErrUnmountRetries (lastErr : option Errno) (* failed to unmount after retries: %w *)
| ErrHasChildren (name : string)     (* cannot delete ref '%s': it has child refs *)
| ErrIsMounted (name : string)       (* cannot delete ref '%s': it is currently mounted *)
| ErrRemoveRefFile (inner : Err)     (* failed to remove ref file: %w *)
| ErrRemoveLayerDir (inner : Err)    (* failed to remove layer directory: %w *)
| ErrErrno (e : Errno)               (* a syscall error returned as it is *)
| ErrPathError (path : string) (e : Errno). (* an os error returned as it is *)

(** A Go [(T, error)] result. *)
Inductive result (A : Type) :=
| Ok (a : A)
| Error (e : Err).
Arguments Ok {A} a.
Arguments Error {A} e.

(** The error kinds of the specification, and the kind of each error of
    the program.  No error of the program has kind [AlreadyExists]. *)
Module Kind.
Inductive t :=
| InvalidName | AlreadyExists | ParentNotFound | RefNotFound
| AlreadyMounted | NotMounted | HasChildren | RefMounted
| MountFailed | UnmountFailed | IOError.
End Kind.

Definition kind_of (e : Err) : Kind.t :=
  match e with
  | ErrEmptyName | ErrInvalidChars => Kind.InvalidName
  | ErrParentNotFound _ => Kind.ParentNotFound
  | ErrRefNotFound _ => Kind.RefNotFound
  | ErrMountPointInUse => Kind.AlreadyMounted
  | ErrNotMounted => Kind.NotMounted
  | ErrUnmountRetries _ => Kind.UnmountFailed
  | ErrHasChildren _ => Kind.HasChildren
  | ErrIsMounted _ => Kind.RefMounted
  | ErrErrno _ => Kind.MountFailed
  | ErrCreateLayer _ | ErrCreateMountPoint _ | ErrCreateWorkDir _
  | ErrRemoveRefFile _ | ErrRemoveLayerDir _ | ErrPathError _ _ => Kind.IOError
  end.

(** ** A state monad over the world *)

Definition M (A : Type) : Type := World -> A * World.
Definition ret {A} (a : A) : M A := fun w => (a, w).
Definition bind {A B} (m : M A) (k : A -> M B) : M B :=
  fun w => let (a, w') := m w in k a w'.
Definition gets {A} (f : World -> A) : M A := fun w => (f w, w).
Definition modify (f : World -> World) : M unit := fun w => (tt, f w).

Notation "x <- c1 ;; c2" := (bind c1 (fun x => c2))
  (at level 100, c1 at next level, right associativity).
Notation "c1 ;;; c2" := (bind c1 (fun _ => c2))
  (at level 100, right associativity).

(** ** Constants *)

(** [time.Millisecond], in nanoseconds. *)
Definition Millisecond : Z := 1000000.
(** [syscall.MS_BIND] and [syscall.MNT_DETACH] *)
Definition MS_BIND : Z := 4096.
Definition MNT_DETACH : Z := 2.

(** The characters [validateRefName] refuses: slash, backslash, colon,
    star, question mark, double quote, angle brackets, bar. *)
Definition forbidden_chars : string :=
  "/\:*?" +:+ String "034"%char "<>|".

(** The text of [/proc/mounts] for a mount table. *)
Definition proc_mounts_line (e : MountEntry) : string :=
  me_source e +:+ " " +:+ me_target e +:+ " " +:+ me_fstype e +:+ " "
  +:+ me_opts e +:+ " 0 0" +:+ String "010"%char "".

Definition proc_mounts (t : list MountEntry) : string :=
  String.concat "" (map proc_mounts_line t).

(** Unmounting removes the entry mounted last on the target. *)
Fixpoint remove_first_target (target : string) (t : list MountEntry)
  : list MountEntry :=
  match t with
  | [] => []
  | e :: t' => if String.eqb (me_target e) target then t'
               else e :: remove_first_target target t'
  end.
Definition remove_last_target (target : string) (t : list MountEntry)
  : list MountEntry :=
  rev (remove_first_target target (rev t)).

(** ** The program *)

Section Program.

(** The operating system and the receiver [gt] of every method. *)
Variable os : Fate.
Variable gt : GoTree.

(** *** Calls *)

(** A call whose outcome the operating system decides. *)
Definition syscall (c : Call) : M (option Errno) :=
  fun w => let r := errno_of os (trace w) c in (r, record_event (c, r) w).

(** A call that returns nothing. *)
Definition emit (c : Call) : M unit :=
  fun w => (tt, record_event (c, None) w).

(** A call that changes the world when it succeeds. *)
Definition syscall_then (c : Call) (effect : World -> World)
  : M (option Errno) :=
  r <- syscall c ;;
  match r with
  | None => modify effect ;;; ret None
  | Some e => ret (Some e)
  end.

Definition time_Now : M Z := gets clock.
Definition time_Sleep (d : Z) : M unit :=
  emit (Sleep d) ;;; modify (set_clock (fun t => t + d)).
Definition syscall_Sync : M unit := emit SysSync.

(** The path the kernel records for a mount target. *)
Definition resolve (w : World) (p : string) : string :=
  default p (filepath.Abs (cwd w) p).

Definition syscall_Mount (source target fstype : string) (flags : Z)
    (data : string) : M (option Errno) :=
  tgt <- gets (fun w => resolve w target) ;;
  syscall_then (SysMount source target fstype flags data)
    (set_mtab (fun t => t ++ [mkMountEntry source tgt fstype data])).

Definition syscall_Unmount (target : string) (flags : Z) : M (option Errno) :=
  tgt <- gets (fun w => resolve w target) ;;
  syscall_then (SysUnmount target flags) (set_mtab (remove_last_target tgt)).

(** [exec.Command(argv...).Run()], errors ignored by every caller. *)
Definition exec_Run (argv : list string) : M unit :=
  syscall (Exec argv) ;;; ret tt.

(** [exec.Command(argv...).Output()] *)
Definition exec_Output (argv : list string) : M (string * option Errno) :=
  out <- gets (fun w => stdout_of os (trace w) (Exec argv)) ;;
  err <- syscall (Exec argv) ;;
  ret (out, err).

Fixpoint for_each {A} (l : list A) (body : A -> M unit) : M unit :=
  match l with
  | [] => ret tt
  | x :: l' => body x ;;; for_each l' body
  end.

(** *** Paths inside the repository *)

Definition refPath (name : string) : string :=
  filepath.Join [repoPath gt; "refs"; name +:+ ".json"].
Definition layerPath (layerID : string) : string :=
  filepath.Join [repoPath gt; "layers"; layerID].
Definition workPath (layerID : string) : string :=
  filepath.Join [repoPath gt; "work"; layerID].
Definition mountFile (mountPoint : string) : string :=
  filepath.Join [repoPath gt; "mounts"; filepath.Base mountPoint +:+ ".json"].

(** *** Helper methods *)

Definition validateRefName (name : string) : result unit :=
  if String.eqb name "" then Error ErrEmptyName
  else if strings.ContainsAny name forbidden_chars then Error ErrInvalidChars
  else Ok tt.

Definition generateLayerID : M string :=
  now <- time_Now ;;
  ret ("layer_" +:+ pretty now).

(** [json.MarshalIndent] cannot fail on a [Ref]; the write can. *)
Definition saveRef (ref : Ref) : M (result unit) :=
  err <- syscall_then (WriteFile (refPath (Name ref)))
           (set_refs (insert (Name ref) ref)) ;;
  match err with
  | Some e => ret (Error (ErrPathError (refPath (Name ref)) e))
  | None => ret (Ok tt)
  end.

Definition getRef (name : string) : M (result Ref) :=
  gets (fun w => match refs w !! name with
                 | Some ref => Ok ref
                 | None => Error (ErrPathError (refPath name) ENOENT)
                 end).

(** The loop of [buildLowerDirs]; one unit of fuel per test of the
    loop condition, [None] when the fuel runs out first. *)
Fixpoint buildLowerDirs_loop (fuel : nat) (dirs : list string)
    (current : Ref) : M (option (list string)) :=
  match fuel with
  | O => ret None
  | S fuel' =>
      if String.eqb (Parent current) "" then ret (Some dirs)
      else
        r <- getRef (Parent current) ;;
        match r with
        | Error _ => ret (Some dirs)
        | Ok parent =>
            buildLowerDirs_loop fuel'
              (dirs ++ [layerPath (LayerID parent)]) parent
        end
  end.

Definition buildLowerDirs (fuel : nat) (ref : Ref) : M (option (list string)) :=
  buildLowerDirs_loop fuel [] ref.

Definition isMounted (mountPoint : string) : M bool :=
  gets (fun w =>
    if procfs w then
      let data := proc_mounts (mtab w) in
      let absPath := default "" (filepath.Abs (cwd w) mountPoint) in
      strings.Contains data absPath
    else false).

(** *** Creating refs *)

Definition CreateEmptyRef (name : string) : M (result unit) :=
  match validateRefName name with
  | Error e => ret (Error e)
  | Ok _ =>
      layerID <- generateLayerID ;;
      err <- syscall_then (MkdirAll (layerPath layerID))
               (set_layers (union {[layerID]})) ;;
      match err with
      | Some e => ret (Error (ErrCreateLayer (ErrPathError (layerPath layerID) e)))
      | None =>
          now <- time_Now ;;
          saveRef (mkRef name "" layerID now ∅)
      end
  end.

Definition CreateRefFromParent (name parent : string) : M (result unit) :=
  match validateRefName name with
  | Error e => ret (Error e)
  | Ok _ =>
      r <- getRef parent ;;
      match r with
      | Error e => ret (Error (ErrParentNotFound e))
      | Ok parentRef =>
          layerID <- generateLayerID ;;
          err <- syscall_then (MkdirAll (layerPath layerID))
                   (set_layers (union {[layerID]})) ;;
          match err with
          | Some e => ret (Error (ErrCreateLayer (ErrPathError (layerPath layerID) e)))
          | None =>
              let metadata := Metadata parentRef in
              now <- time_Now ;;
              saveRef (mkRef name parent layerID now metadata)
          end
      end
  end.

(** *** Mounting *)

(** [None] when [buildLowerDirs] has not returned within the fuel. *)
Definition Mount (fuel : nat) (refName mountPoint : string)
  : M (option (result unit)) :=
  r <- getRef refName ;;
  match r with
  | Error e => ret (Some (Error (ErrRefNotFound e)))
  | Ok ref =>
      err <- syscall (MkdirAll mountPoint) ;;
      match err with
      | Some e =>
          ret (Some (Error (ErrCreateMountPoint (ErrPathError mountPoint e))))
      | None =>
          mounted <- isMounted mountPoint ;;
          if mounted then ret (Some (Error ErrMountPointInUse))
          else
            built <- buildLowerDirs fuel ref ;;
            match built with
            | None => ret None
            | Some lowerDirs =>
                let upperDir := layerPath (LayerID ref) in
                let workDir := workPath (LayerID ref) in
                err <- syscall_then (MkdirAll workDir)
                         (set_work (union {[LayerID ref]})) ;;
                match err with
                | Some e =>
                    ret (Some (Error (ErrCreateWorkDir (ErrPathError workDir e))))
                | None =>
                    let opts :=
                      match lowerDirs with
                      | _ :: _ =>
                          "lowerdir=" +:+ strings.Join lowerDirs ":"
                          +:+ ",upperdir=" +:+ upperDir
                          +:+ ",workdir=" +:+ workDir
                      | [] =>
                          "lowerdir=" +:+ upperDir
                          +:+ ",upperdir=" +:+ upperDir
                          +:+ ",workdir=" +:+ workDir
                      end in
                    err <- syscall_Mount "overlay" mountPoint "overlay" 0 opts ;;
                    match err with
                    | Some _ =>
                        err <- syscall_Mount upperDir mountPoint "" MS_BIND "" ;;
                        match err with
                        | Some e => ret (Some (Error (ErrErrno e)))
                        | None => ret (Some (Ok tt))
                        end
                    | None =>
                        let mountInfo : gmap string string :=
                          <["ref" := refName]>
                            (<["mountPoint" := mountPoint]> ∅) in
                        err <- syscall_then (WriteFile (mountFile mountPoint))
                                 (set_mounts (insert (filepath.Base mountPoint) mountInfo)) ;;
                        match err with
                        | Some e =>
                            ret (Some (Error (ErrPathError (mountFile mountPoint) e)))
                        | None => ret (Some (Ok tt))
                        end
                    end
                end
            end
      end
  end.

(** *** Unmounting *)

Definition killProcessesUsingMount (mountPoint : string) : M unit :=
  exec_Run ["fuser"; "-km"; mountPoint] ;;;
  r <- exec_Output ["lsof"; "-t"; "+D"; mountPoint] ;;
  match r with
  | (output, None) =>
      if String.eqb output "" then ret tt
      else
        let pids := strings.Fields output in
        for_each pids (fun pid => exec_Run ["kill"; "-TERM"; pid]) ;;;
        time_Sleep (100 * Millisecond) ;;;
        for_each pids (fun pid => exec_Run ["kill"; "-KILL"; pid])
  | (_, Some _) => ret tt
  end.

(** [os.Remove(mountFile)]: fails when the file is absent; the caller
    ignores the error. *)
Definition remove_mountFile (mountPoint : string) : M unit :=
  present <- gets (fun w => bool_decide (is_Some (mounts w !! filepath.Base mountPoint))) ;;
  if present then
    syscall_then (Remove (mountFile mountPoint))
      (set_mounts (delete (filepath.Base mountPoint))) ;;; ret tt
  else
    modify (record_event (Remove (mountFile mountPoint), Some ENOENT)).

(** The retry loop, [for i := 0; i < maxRetries; i++]: [remaining] is
    the number of iterations still to run, [maxRetries - i]. *)
Fixpoint unmount_loop (force : bool) (mountPoint absPath : string)
    (maxRetries : Z) (remaining : nat) (i : Z) (lastErr : option Errno)
  : M (result unit) :=
  match remaining with
  | O => ret (Error (ErrUnmountRetries lastErr))
  | S remaining' =>
      (if 0 <? i then
         time_Sleep (100 * (i + 1) * Millisecond) ;;; syscall_Sync
       else ret tt) ;;;
      (if force && (0 <? i) then
         killProcessesUsingMount absPath ;;;
         time_Sleep (200 * Millisecond)
       else ret tt) ;;;
      err <- syscall_Unmount mountPoint 0 ;;
      match err with
      | None => remove_mountFile mountPoint ;;; ret (Ok tt)
      | Some e =>
          let lastErr := Some e in
          if i =? maxRetries - 1 then
            err <- syscall_Unmount mountPoint MNT_DETACH ;;
            match err with
            | None => remove_mountFile mountPoint ;;; ret (Ok tt)
            | Some _ =>
                unmount_loop force mountPoint absPath maxRetries remaining'
                  (i + 1) lastErr
            end
          else
            unmount_loop force mountPoint absPath maxRetries remaining'
              (i + 1) lastErr
      end
  end.

Definition maxRetries_of (force : bool) : Z := if force then 5 else 3.

Definition unmountWithOptions (mountPoint : string) (force : bool)
  : M (result unit) :=
  mounted <- isMounted mountPoint ;;
  if negb mounted then ret (Error ErrNotMounted)
  else
    absPath <- gets (fun w => default mountPoint (filepath.Abs (cwd w) mountPoint)) ;;
    syscall_Sync ;;;
    let maxRetries := maxRetries_of force in
    unmount_loop force mountPoint absPath maxRetries
      (Z.to_nat maxRetries) 0 None.

Definition Unmount (mountPoint : string) : M (result unit) :=
  unmountWithOptions mountPoint false.

Definition UnmountForce (mountPoint : string) : M (result unit) :=
  unmountWithOptions mountPoint true.

(** *** Deleting refs *)

(** The directory listing of [refs/], decoded. *)
Definition ListRefs : M (result (list Ref)) :=
  gets (fun w => Ok (map snd (map_to_list (refs w)))).

Definition HasChildren (refName : string) : M (result bool) :=
  r <- ListRefs ;;
  match r with
  | Error e => ret (Error e)
  | Ok rs =>
      ret (Ok (existsb (fun r => String.eqb (Parent r) refName) rs))
  end.

(** [info["ref"]]: the empty string when the key is missing. *)
Definition info_ref (info : gmap string string) : string :=
  default "" (info !! "ref").

Definition IsMountedRef (refName : string) : M (result bool) :=
  gets (fun w =>
    Ok (existsb (fun info => String.eqb (info_ref info) refName)
          (map snd (map_to_list (mounts w))))).

(** [err != nil && !os.IsNotExist(err)] *)
Definition other_than_not_exist (err : option Errno) : option Errno :=
  match err with
  | Some e => if IsNotExist e then None else Some e
  | None => None
  end.

Definition DeleteRef (name : string) (force : bool) : M (result unit) :=
  r <- getRef name ;;
  match r with
  | Error e => ret (Error (ErrRefNotFound e))
  | Ok ref =>
      guard <-
        (if negb force then
           r <- HasChildren name ;;
           match r with
           | Error e => ret (Some e)
           | Ok true => ret (Some (ErrHasChildren name))
           | Ok false =>
               r <- IsMountedRef name ;;
               match r with
               | Error e => ret (Some e)
               | Ok true => ret (Some (ErrIsMounted name))
               | Ok false => ret None
               end
           end
         else ret None) ;;
      match guard with
      | Some e => ret (Error e)
      | None =>
          err <- syscall_then (Remove (refPath name)) (set_refs (delete name)) ;;
          match other_than_not_exist err with
          | Some e =>
              ret (Error (ErrRemoveRefFile (ErrPathError (refPath name) e)))
          | None =>
              let layerPath := layerPath (LayerID ref) in
              err <- syscall_then (RemoveAll layerPath)
                       (set_layers (fun s => s ∖ {[LayerID ref]})) ;;
              match other_than_not_exist err with
              | Some e =>
                  ret (Error (ErrRemoveLayerDir (ErrPathError layerPath e)))
              | None =>
                  let workPath := workPath (LayerID ref) in
                  syscall_then (RemoveAll workPath)
                    (set_work (fun s => s ∖ {[LayerID ref]})) ;;;
                  ret (Ok tt)
              end
          end
      end
  end.

End Program.

(** ** The traversal of the [size] command

    The [size] case of [main] walks the same parent links, summing
    [dirSize] over the layers it meets, and stops when a layer id comes
    back ("basic cycle protection").  The walk returns the layer paths it
    measures. *)

Section Size.

Variable os : Fate.
Variable gt : GoTree.

Fixpoint size_walk (fuel : nat) (seen : gset string) (visited : list string)
    (current : Ref) : M (option (list string)) :=
  match fuel with
  | O => ret None
  | S fuel' =>
      if bool_decide (LayerID current ∈ seen) then ret (Some visited)
      else
        let seen := {[LayerID current]} ∪ seen in
        let visited := visited ++ [layerPath gt (LayerID current)] in
        if String.eqb (Parent current) "" then ret (Some visited)
        else
          r <- getRef gt (Parent current) ;;
          match r with
          | Error _ => ret (Some visited)
          | Ok parentRef => size_walk fuel' seen visited parentRef
          end
  end.

End Size.

(** ** The parent relation of a ref store *)

(** [p] is the parent that ref [n] records. *)
Definition parent_of (st : gmap string Ref) (n p : string) : Prop :=
  exists r, st !! n = Some r /\ Parent r = p /\ p <> "".

(** No ref is its own transitive ancestor. *)
Definition acyclic (st : gmap string Ref) : Prop :=
  forall n, ~ tc (parent_of st) n n.

(** Every recorded parent names a ref of the store. *)
Definition parents_resolve (st : gmap string Ref) : Prop :=
  forall n r, st !! n = Some r -> Parent r <> "" -> is_Some (st !! Parent r).

(** The ancestors of a ref whose chain of parents ends at a root,
    nearest parent first. *)
Inductive Ancestors (st : gmap string Ref) : Ref -> list Ref -> Prop :=
| Ancestors_root r :
    Parent r = "" -> Ancestors st r []
| Ancestors_step r p l :
    Parent r <> "" -> st !! Parent r = Some p -> Ancestors st p l ->
    Ancestors st r (p :: l).

(** ** Sequences of creations *)

Inductive Op :=
| OpCreateRoot (name : string)
| OpCreateChild (name parent : string).

Definition op_name (op : Op) : string :=
  match op with
  | OpCreateRoot name => name
  | OpCreateChild name _ => name
  end.

Definition run_op (os : Fate) (gt : GoTree) (op : Op) : M (result unit) :=
  match op with
  | OpCreateRoot name => CreateEmptyRef os gt name
  | OpCreateChild name parent => CreateRefFromParent os gt name parent
  end.

(** Each operation is issued some time after the one before. *)
Fixpoint run_ops (os : Fate) (gt : GoTree) (ops : list (Z * Op)) (w : World)
  : World :=
  match ops with
  | [] => w
  | (delay, op) :: ops' =>
      run_ops os gt ops'
        (snd (run_op os gt op (set_clock (fun t => t + delay) w)))
  end.

(** ** The shape of an unmount run

    The events one call of [unmountWithOptions] adds to the trace, read
    attempt by attempt. *)

(** A plain (not detaching) unmount of [mp]. *)
Definition is_attempt (mp : string) (e : Event) : bool :=
  match e with
  | (SysUnmount target flags, _) => String.eqb target mp && (flags =? 0)
  | _ => false
  end.

Definition is_unmount (e : Event) : bool :=
  match e with
  | (SysUnmount _ _, _) => true
  | _ => false
  end.

(** Running a program: [fuser -k], [lsof], [kill]. *)
Definition is_exec (e : Event) : bool :=
  match e with
  | (Exec _, _) => true
  | _ => false
  end.

Definition is_exec_or_sleep (e : Event) : bool :=
  match e with
  | (Exec _, _) | (Sleep _, _) => true
  | _ => false
  end.

(** The wait before the attempt of loop index [i]: none before the
    first, then [100 * (i + 1)] milliseconds and a flush. *)
Definition backoff (i : Z) : list Event :=
  if 0 <? i then [(Sleep (100 * (i + 1) * Millisecond), None); (SysSync, None)]
  else [].

(** The outcome of the last plain unmount among [evs], [init] when there
    is none. *)
Definition last_attempt_error (mp : string) (init : option Z)
    (evs : list Event) : option Z :=
  fold_left (fun acc e => if is_attempt mp e then snd e else acc) evs init.

(** The process-killing events between the wait and the attempt: only
    under force and after the first attempt. *)
Definition kills_ok (force : bool) (i : Z) (kills : list Event) : Prop :=
  Forall (fun e => is_exec_or_sleep e = true) kills /\
  (force && (0 <? i) = false -> kills = []).

(** The runs of the retry loop from index [i] with [n] iterations left:
    the events added and the result. *)
Inductive LoopRun (force : bool) (mp mf : string) (maxRetries : Z)
  : nat -> Z -> option Z -> list Event -> result unit -> Prop :=
| LoopRun_exhausted i lastErr :
    LoopRun force mp mf maxRetries O i lastErr []
      (Error (ErrUnmountRetries lastErr))
| LoopRun_unmounted n i lastErr kills rm :
    kills_ok force i kills ->
    LoopRun force mp mf maxRetries (S n) i lastErr
      (backoff i ++ kills ++ [(SysUnmount mp 0, None); (Remove mf, rm)])
      (Ok tt)
| LoopRun_retry n i lastErr kills e evs res :
    kills_ok force i kills ->
    i <> maxRetries - 1 ->
    LoopRun force mp mf maxRetries n (i + 1) (Some e) evs res ->
    LoopRun force mp mf maxRetries (S n) i lastErr
      (backoff i ++ kills ++ (SysUnmount mp 0, Some e) :: evs) res
| LoopRun_detached n i lastErr kills e rm :
    kills_ok force i kills ->
    i = maxRetries - 1 ->
    LoopRun force mp mf maxRetries (S n) i lastErr
      (backoff i ++ kills ++
       [(SysUnmount mp 0, Some e); (SysUnmount mp MNT_DETACH, None);
        (Remove mf, rm)])
      (Ok tt)
| LoopRun_detach_failed n i lastErr kills e e' evs res :
    kills_ok force i kills ->
    i = maxRetries - 1 ->
    LoopRun force mp mf maxRetries n (i + 1) (Some e) evs res ->
    LoopRun force mp mf maxRetries (S n) i lastErr
      (backoff i ++ kills ++
       (SysUnmount mp 0, Some e) :: (SysUnmount mp MNT_DETACH, Some e') :: evs)
      res.

(** The events added to the trace between two worlds. *)
Definition events_since (w w' : World) : list Event :=
  drop (length (trace w)) (trace w').

(** ** The rest of the program *)

(** The errors of the methods below: those of [Err] and two more
    messages. *)
Inductive ExtErr :=
| ErrBase (e : Err)
| ErrMetadataKeyNotFound (key : string)            (* metadata key not found: %s *)
| ErrCreateDirectory (dir : string) (inner : Err). (* failed to create directory %s: %w *)

Inductive xresult (A : Type) :=
| XOk (a : A)
| XError (e : ExtErr).
Arguments XOk {A} a.
Arguments XError {A} e.

Section Program_rest.

Variable os : Fate.

(** The loop of [NewGoTree] over the directories of the repository. *)
Fixpoint NewGoTree_loop (dirs : list string) : M (option ExtErr) :=
  match dirs with
  | [] => ret None
  | dir :: dirs' =>
      err <- syscall os (MkdirAll dir) ;;
      match err with
      | Some e => ret (Some (ErrCreateDirectory dir (ErrPathError dir e)))
      | None => NewGoTree_loop dirs'
      end
  end.

Definition NewGoTree (repoPath : string) : M (xresult GoTree) :=
  let gt := mkGoTree repoPath in
  let dirs := [filepath.Join [repoPath; "refs"];
               filepath.Join [repoPath; "layers"];
               filepath.Join [repoPath; "work"];
               filepath.Join [repoPath; "mounts"]] in
  err <- NewGoTree_loop dirs ;;
  match err with
  | Some e => ret (XError e)
  | None => ret (XOk gt)
  end.

Variable gt : GoTree.

(** [Commit]: a nil [Metadata] map becomes the empty map, which is the
    same map here. *)
Definition Commit (refName message : string) : M (result unit) :=
  r <- getRef gt refName ;;
  match r with
  | Error e => ret (Error (ErrRefNotFound e))
  | Ok ref =>
      now <- time_Now ;;
      let metadata :=
        if String.eqb message "" then Metadata ref
        else <["commit.message" := message]> (Metadata ref) in
      saveRef os gt (mkRef (Name ref) (Parent ref) (LayerID ref) now metadata)
  end.

Definition SetMetadata (refName key value : string) : M (result unit) :=
  r <- getRef gt refName ;;
  match r with
  | Error e => ret (Error (ErrRefNotFound e))
  | Ok ref =>
      saveRef os gt
        (mkRef (Name ref) (Parent ref) (LayerID ref) (CreatedAt ref)
           (<[key := value]> (Metadata ref)))
  end.

(** A ref file holds no empty [metadata] object ([omitempty]), so the
    decoded map is nil exactly when it is empty. *)
Definition is_nil (m : gmap string string) : bool := bool_decide (m = ∅).

Definition GetMetadata (refName key : string) : M (xresult string) :=
  r <- getRef gt refName ;;
  match r with
  | Error e => ret (XError (ErrBase (ErrRefNotFound e)))
  | Ok ref =>
      if is_nil (Metadata ref) then ret (XError (ErrMetadataKeyNotFound key))
      else
        match Metadata ref !! key with
        | None => ret (XError (ErrMetadataKeyNotFound key))
        | Some value => ret (XOk value)
        end
  end.


Definition DeleteMetadata (refName key : string) : M (result unit) :=
  r <- getRef gt refName ;;
  match r with
  | Error e => ret (Error (ErrRefNotFound e))
  | Ok ref =>
      if is_nil (Metadata ref) then ret (Ok tt)
      else
        saveRef os gt
          (mkRef (Name ref) (Parent ref) (LayerID ref) (CreatedAt ref)
             (delete key (Metadata ref)))
  end.

(** The commands of [main] that change the repository, with their
    arguments. *)
Inductive Cmd :=
| CmdCreate (name : string) (parent : option string)
| CmdMount (refName mountPoint : string)
| CmdUnmount (mountPoint : string) (force : bool)
| CmdCommit (refName message : string)
| CmdDelete (refName : string) (force : bool)
| CmdMetadataSet (refName key value : string)
| CmdMetadataDelete (refName key : string).

(** The [switch] of [main] on those commands; [None] when [Mount] has
    not returned within the fuel. *)
Definition run_cmd (fuel : nat) (cmd : Cmd) : M (option (result unit)) :=
  match cmd with
  | CmdCreate name (Some parent) =>
      r <- CreateRefFromParent os gt name parent ;; ret (Some r)
  | CmdCreate name None =>
      r <- CreateEmptyRef os gt name ;; ret (Some r)
  | CmdMount refName mountPoint => Mount os gt fuel refName mountPoint
  | CmdUnmount mountPoint true =>
      r <- UnmountForce os gt mountPoint ;; ret (Some r)
  | CmdUnmount mountPoint false =>
      r <- Unmount os gt mountPoint ;; ret (Some r)
  | CmdCommit refName message =>
      r <- Commit refName message ;; ret (Some r)
  | CmdDelete refName force =>
      r <- DeleteRef os gt refName force ;; ret (Some r)
  | CmdMetadataSet refName key value =>
      r <- SetMetadata refName key value ;; ret (Some r)
  | CmdMetadataDelete refName key =>
      r <- DeleteMetadata refName key ;; ret (Some r)
  end.

End Program_rest.

(** A sequence of commands, each issued some time after the one before,
    by separate runs of the program. *)
Fixpoint run_cmds (os : Fate) (gt : GoTree) (fuel : nat)
    (cmds : list (Z * Cmd)) (w : World) : World :=
  match cmds with
  | [] => w
  | (delay, cmd) :: cmds' =>
      run_cmds os gt fuel cmds'
        (snd (run_cmd os gt fuel cmd (set_clock (fun t => t + delay) w)))
  end.

(** ** [formatBytes]

    The integer part of [formatBytes]: the choice between plain bytes
    and a binary unit, and the loop that finds the unit.  [int64]
    arithmetic is written out; the rendering of the quotient with
    [%.1f] is floating point and is left as the pair of its operands. *)

Definition wrap64 (x : Z) : Z := (x + 2 ^ 63) mod 2 ^ 64 - 2 ^ 63.

(** [for n := b / unit; n >= unit; n /= unit { div *= unit; exp++ }] *)
Fixpoint formatBytes_loop (fuel : nat) (n div exp : Z) : option (Z * Z) :=
  match fuel with
  | O => None
  | S fuel' =>
      if 1024 <=? n then
        formatBytes_loop fuel' (Z.quot n 1024) (wrap64 (div * 1024)) (exp + 1)
      else Some (div, exp)
  end.

(** What [formatBytes] prints: the decimal number and [" B"]; or the
    quotient of [b] by [div] with one decimal and the unit letter; or
    nothing, when indexing ["KMGTPE"] panics. *)
Inductive Formatted :=
| PlainBytes (text : string)
| Scaled (b div : Z) (letter : ascii)
| IndexPanic.

Definition formatBytes (fuel : nat) (b : Z) : option Formatted :=
  if b <? 1024 then Some (PlainBytes (pretty b +:+ " B"))
  else
    match formatBytes_loop fuel (Z.quot b 1024) 1024 0 with
    | None => None
    | Some (div, exp) =>
        if (0 <=? exp) && (exp <? 6) then
          match String.get (Z.to_nat exp) "KMGTPE" with
          | Some letter => Some (Scaled b div letter)
          | None => Some IndexPanic
          end
        else Some IndexPanic
    end.

(** ** The vocabulary of the properties *)


(** The record [CreateEmptyRef] writes in world [w]. *)
Definition fresh_root (w : World) (name : string) : Ref :=
  mkRef name "" ("layer_" +:+ pretty (clock w)) (clock w) ∅.




(** The option string of an overlay mount. *)
Definition overlay_opts (lowers : list string) (upper workdir : string)
  : string :=
  "lowerdir=" +:+ strings.Join lowers ":" +:+ ",upperdir=" +:+ upper
  +:+ ",workdir=" +:+ workdir.

(** The lower layers the specification describes for a ref with
    ancestors [l]: theirs, nearest first, or the ref's own layer when it
    has none. *)
Definition lowers_of (gt : GoTree) (ref : Ref) (l : list Ref) : list string :=
  match l with
  | [] => [layerPath gt (LayerID ref)]
  | _ :: _ => map (fun a => layerPath gt (LayerID a)) l
  end.

(** Some ref records [name] as its parent. *)
Definition has_child (st : gmap string Ref) (name : string) : Prop :=
  exists c r, st !! c = Some r /\ Parent r = name.

(** Some mount-session record references [name]. *)
Definition has_session (ms : gmap string (gmap string string)) (name : string)
  : Prop :=
  exists k info, ms !! k = Some info /\ info_ref info = name.

(** The wait before the attempt number [k] (the first attempt is number
    1): [k * 100] milliseconds and a flush, nothing before the first. *)
Definition wait_before (k : nat) : list Event :=
  match k with
  | 1%nat => []
  | _ => [(Sleep (Z.of_nat k * (100 * Millisecond)), None); (SysSync, None)]
  end.

(** The layer ids recorded in a ref store. *)
Definition layer_ids (st : gmap string Ref) : gset string :=
  map_img (LayerID <$> st).

(** The record [Mount] writes for a ref and a mount point. *)
Definition session_info (refName mountPoint : string) : gmap string string :=
  <["ref" := refName]> (<["mountPoint" := mountPoint]> ∅).

(** ** Sample worlds *)

(** An operating system on which every call succeeds. *)
Definition fate_ok : Fate := mkFate (fun _ _ => None) (fun _ _ => "").

Definition gt0 : GoTree := mkGoTree "/var/lib/gotree".

(** A repository holding the root ref [base], created at time 1000 and
    given one metadata entry since. *)
Definition base_ref : Ref :=
  mkRef "base" "" "layer_1000" 1000 {[ "os" := "linux" ]}.

Definition w_base : World :=
  mkWorld {[ "base" := base_ref ]} {[ "layer_1000" ]} ∅ ∅ [] true
          (Some "/home/u") 2000 [].

(** The creation [create base base], issued on a store that holds
    [base]. *)
Definition ops_self_parent : list (Z * Op) :=
  [(0, OpCreateChild "base" "base")].

(** The store after [create base] and [create base base]. *)
Definition w_self_parent : World := run_ops fate_ok gt0 ops_self_parent w_base.

Definition self_parent_ref : Ref :=
  mkRef "base" "base" "layer_2000" 2000 {[ "os" := "linux" ]}.

(** A repository in which [dev] names a parent [base] that is gone, as
    after a forced deletion of [base]. *)
Definition w_dangling : World :=
  mkWorld {[ "dev" := mkRef "dev" "base" "layer_1500" 1500 ∅ ]}
          {[ "layer_1500" ]} ∅ ∅ [] true (Some "/home/u") 2000 [].

(** An empty repository, and the tree [base] <- [dev] built in it. *)
Definition w_empty : World :=
  mkWorld ∅ ∅ ∅ ∅ [] true (Some "/home/u") 1000 [].

Definition ops_tree : list (Z * Op) :=
  [(0, OpCreateRoot "base"); (500, OpCreateChild "dev" "base")].

Definition w_tree : World := run_ops fate_ok gt0 ops_tree w_empty.

Definition dev_ref : Ref := mkRef "dev" "base" "layer_1500" 1500 ∅.
Definition root_ref : Ref := mkRef "base" "" "layer_1000" 1000 ∅.

(** The tree with [dev] mounted on [/mnt/dev]. *)
Definition w_mounted : World :=
  snd (Mount fate_ok gt0 2 "dev" "/mnt/dev" w_tree).

(** An operating system on which every unmount fails with [EBUSY] and
    [lsof] finds two processes. *)
Definition fate_busy : Fate :=
  mkFate (fun _ c => match c with
                     | SysUnmount _ _ => Some EBUSY
                     | _ => None
                     end)
         (fun _ c => match c with
                     | Exec ("lsof" :: _) => "12 34"
                     | _ => ""
                     end).

(** An operating system on which plain unmounts fail with [EBUSY] and
    detaching ones with [EINVAL]. *)
Definition fate_busy_then_invalid : Fate :=
  mkFate (fun _ c => match c with
                     | SysUnmount _ 0 => Some EBUSY
                     | SysUnmount _ _ => Some EINVAL
                     | _ => None
                     end)
         (fun _ _ => "").

(** An operating system without overlay support: the overlay mount
    fails, every other call succeeds. *)
Definition fate_no_overlay : Fate :=
  mkFate (fun _ c => match c with
                     | SysMount "overlay" _ _ _ _ => Some ENODEV
                     | _ => None
                     end)
         (fun _ _ => "").

(** ** Unfolding the monad *)

Ltac run_M :=
  cbv beta iota zeta delta
    [bind ret gets modify syscall_then syscall emit time_Now time_Sleep
     syscall_Sync syscall_Mount syscall_Unmount exec_Run exec_Output
     generateLayerID saveRef getRef isMounted fst snd].

(** Projections of an updated world. *)
Ltac simpl_world :=
  cbn [refs layers work mounts mtab procfs cwd clock trace set_refs
       set_layers set_work set_mounts set_mtab set_clock record_event
       Name Parent LayerID CreatedAt Metadata] in *.

(** Case analysis on the next answer of the operating system. *)
Ltac case_fate :=
  match goal with
  | |- context [errno_of ?o ?t ?c] =>
      let H := fresh "Hfate" in destruct (errno_of o t c) eqn:H
  end.

(** * Properties *)

(** ** The library functions on sample inputs *)

Example Clean_ex1 : filepath.Clean "/a//b/./c/../d/" = "/a/b/d".
Proof. reflexivity. Qed.
Example Clean_ex2 : filepath.Clean "../../a/.." = "../..".
Proof. reflexivity. Qed.
Example Clean_ex3 : filepath.Clean "/../a" = "/a".
Proof. reflexivity. Qed.
Example Clean_ex4 : filepath.Clean "" = "." /\ filepath.Clean "/" = "/".
Proof. split; reflexivity. Qed.
Example Join_ex : filepath.Join ["/var/lib/gotree"; "layers"; "layer_7"]
                  = "/var/lib/gotree/layers/layer_7".
Proof. reflexivity. Qed.
Example Base_ex : filepath.Base "/mnt/dev/" = "dev" /\ filepath.Base "/" = "/"
                  /\ filepath.Base "" = "." /\ filepath.Base "dev" = "dev".
Proof. repeat split; reflexivity. Qed.
Example Abs_ex : filepath.Abs (Some "/home/u") "mnt/../m2" = Some "/home/u/m2".
Proof. reflexivity. Qed.
Example Contains_ex : strings.Contains "overlay /mnt/data2 overlay rw 0 0" "/mnt/data" = true
                      /\ strings.Contains "abc" "" = true
                      /\ strings.Contains "abc" "bd" = false.
Proof. repeat split; reflexivity. Qed.

(** ** Creating a root ref under a name that is taken *)

Example CreateEmptyRef_base_again :
  fst (CreateEmptyRef fate_ok gt0 "base" w_base) = Ok tt /\
  refs (snd (CreateEmptyRef fate_ok gt0 "base" w_base)) !! "base"
  = Some (mkRef "base" "" "layer_2000" 2000 ∅).
Proof. split; vm_compute; reflexivity. Qed.



Section CreateEmptyRef_facts.
Variables (os : Fate) (gt : GoTree).

Lemma CreateEmptyRef_cases (w : World) (name : string) :
  match fst (CreateEmptyRef os gt name w) with
  | Ok _ =>
      validateRefName name = Ok tt /\
      refs (snd (CreateEmptyRef os gt name w))
      = <[name := fresh_root w name]> (refs w)
  | Error e =>
      (kind_of e = Kind.InvalidName \/ kind_of e = Kind.IOError) /\
      refs (snd (CreateEmptyRef os gt name w)) = refs w
  end.
Proof.
  unfold CreateEmptyRef.
  destruct (validateRefName name) as [[]|e] eqn:Hv.
  - run_M. case_fate; simpl_world.
    + split; [right; reflexivity | reflexivity].
    + case_fate; simpl_world.
      * split; [right; reflexivity | reflexivity].
      * split; reflexivity.
  - simpl. split; [|reflexivity].
    left. unfold validateRefName in Hv.
    destruct (String.eqb name ""); [injection Hv as <-; reflexivity|].
    destruct (strings.ContainsAny name forbidden_chars);
      [injection Hv as <-; reflexivity | discriminate].
Qed.


End CreateEmptyRef_facts.



(** ** Creation and cycles *)

Lemma tc_first_edge {A} (R : relation A) (x y : A) :
  tc R x y -> exists z, R x z.
Proof. intros H. destruct H; eauto. Qed.

Lemma tc_last_edge {A} (R : relation A) (x y : A) :
  tc R x y -> exists m, R m y.
Proof. induction 1; eauto. Qed.


Lemma parent_of_insert_ne (st : gmap string Ref) (n : string) (r : Ref)
    (x y : string) :
  x <> n -> parent_of (<[n:=r]> st) x y -> parent_of st x y.
Proof.
  intros Hne (r' & Hl & Hp & Hy).
  rewrite lookup_insert_ne in Hl by congruence.
  exists r'. auto.
Qed.

Lemma parent_of_resolved (st : gmap string Ref) (x y : string) :
  parents_resolve st -> parent_of st x y -> is_Some (st !! y).
Proof.
  intros Hres (r & Hl & Hp & Hy). subst y. eapply Hres; eassumption.
Qed.

(** Paths that do not start at a fresh node are paths of the old store. *)
Lemma tc_insert_fresh (st : gmap string Ref) (n : string) (r : Ref)
    (x y : string) :
  parents_resolve st -> st !! n = None -> x <> n ->
  tc (parent_of (<[n:=r]> st)) x y -> tc (parent_of st) x y.
Proof.
  intros Hres Hn Hx Htc.
  induction Htc as [x y Hxy | x z y Hxz Hzy IH].
  - apply tc_once. eapply parent_of_insert_ne; eassumption.
  - apply parent_of_insert_ne in Hxz; [|assumption].
    eapply tc_l; [exact Hxz|]. apply IH.
    intros ->. apply (parent_of_resolved _ _ _ Hres) in Hxz.
    rewrite Hn in Hxz. destruct Hxz as [? ?]. discriminate.
Qed.

(** Adding a ref under a name that is free, with no parent or with a
    parent of the store, keeps a store without dangling parents acyclic. *)
Lemma insert_fresh_acyclic (st : gmap string Ref) (n : string) (r : Ref) :
  acyclic st -> parents_resolve st -> st !! n = None ->
  (Parent r = "" \/ is_Some (st !! Parent r)) ->
  acyclic (<[n:=r]> st) /\ parents_resolve (<[n:=r]> st).
Proof.
  intros Hac Hres Hn Hp. split.
  - intros x Hx. destruct (decide (x = n)) as [->|Hne].
    + (* a cycle through the new ref leaves it by its parent link ... *)
      assert (Hin : exists m, m <> n /\ tc (parent_of (<[n:=r]> st)) m n).
      { inversion Hx as [? ? Hedge | ? p ? Hedge Hrest]; subst.
        - destruct Hedge as (r' & Hl & Hpr & Hne).
          rewrite lookup_insert_eq in Hl. injection Hl as <-.
          destruct Hp as [Hp|[pr Hp]]; [congruence|].
          congruence.
        - exists p. split; [|exact Hrest].
          destruct Hedge as (r' & Hl & Hpr & Hne).
          rewrite lookup_insert_eq in Hl. injection Hl as <-.
          destruct Hp as [Hp|[pr Hp]]; [congruence|].
          intros ->. congruence. }
      (* ... and must come back through a ref that names it as parent *)
      destruct Hin as (m & Hm & Hpath).
      apply (tc_insert_fresh _ _ _ _ _ Hres Hn Hm) in Hpath.
      apply tc_last_edge in Hpath. destruct Hpath as (k & Hk).
      apply (parent_of_resolved _ _ _ Hres) in Hk.
      rewrite Hn in Hk. destruct Hk as [? ?]. discriminate.
    + apply (Hac x). eapply tc_insert_fresh; eassumption.
  - intros x rx Hl Hpx. destruct (decide (x = n)) as [->|Hne].
    + rewrite lookup_insert_eq in Hl. injection Hl as <-.
      destruct Hp as [Hp|[pr Hp]]; [congruence|].
      destruct (decide (Parent r = n)) as [Heq|Hpn].
      * congruence.
      * rewrite lookup_insert_ne by congruence. eauto.
    + rewrite lookup_insert_ne in Hl by congruence.
      destruct (Hres x rx Hl Hpx) as [px Hpx'].
      destruct (decide (Parent rx = n)) as [Heq|Hpn].
      * congruence.
      * rewrite lookup_insert_ne by congruence. eauto.
Qed.

(** What a creation does to the ref store: nothing, or one record
    stored under the name, with no parent or with a parent of the store. *)
Lemma run_op_refs (os : Fate) (gt : GoTree) (op : Op) (w : World) :
  refs (snd (run_op os gt op w)) = refs w \/
  exists r, (Parent r = "" \/ is_Some (refs w !! Parent r)) /\
            refs (snd (run_op os gt op w)) = <[op_name op := r]> (refs w).
Proof.
  destruct op as [name | name parent]; simpl.
  - pose proof (CreateEmptyRef_cases os gt w name) as Hc.
    destruct (fst (CreateEmptyRef os gt name w)).
    + right. exists (fresh_root w name). split; [left; reflexivity|apply Hc].
    + left. apply Hc.
  - unfold CreateRefFromParent.
    destruct (validateRefName name); [|left; reflexivity].
    run_M. destruct (refs w !! parent) as [pr|] eqn:Hp; [|left; reflexivity].
    case_fate; simpl_world; [left; reflexivity|].
    case_fate; simpl_world; [left; reflexivity|].
    right. eexists. split; [|reflexivity].
    right. simpl. rewrite Hp. eauto.
Qed.

Lemma run_ops_fresh_forest (os : Fate) (gt : GoTree) (ops : list (Z * Op)) :
  forall w,
    acyclic (refs w) -> parents_resolve (refs w) ->
    NoDup (map (fun o => op_name (snd o)) ops) ->
    (forall o, o ∈ ops -> refs w !! op_name (snd o) = None) ->
    acyclic (refs (run_ops os gt ops w)) /\
    parents_resolve (refs (run_ops os gt ops w)).
Proof.
  induction ops as [|[delay op] ops IH]; intros w Hac Hres Hnd Hfresh.
  - simpl. auto.
  - simpl. inversion Hnd as [|? ? Hnotin Hnd']; subst.
    set (w1 := set_clock (fun t => t + delay) w).
    assert (Hop : refs w1 !! op_name op = None)
      by (apply (Hfresh (delay, op)); left).
    destruct (run_op_refs os gt op w1) as [Heq|(r & Hr & Heq)].
    + apply IH; rewrite ?Heq.
      * exact Hac.
      * exact Hres.
      * exact Hnd'.
      * intros o Ho. apply (Hfresh o). right. exact Ho.
    + destruct (insert_fresh_acyclic (refs w1) (op_name op) r Hac Hres Hop Hr)
        as [Hac' Hres'].
      apply IH; rewrite ?Heq.
      * exact Hac'.
      * exact Hres'.
      * exact Hnd'.
      * intros o Ho. rewrite lookup_insert_ne.
        -- apply (Hfresh o). right. exact Ho.
        -- intros Heq'. apply Hnotin. rewrite Heq'.
           apply list_elem_of_In, (in_map (fun o => op_name (snd o))).
           apply list_elem_of_In, Ho.
Qed.



(** A free name is not enough when some ref already names it as parent. *)
Example dangling_parent_closes_cycle :
  refs w_dangling !! "base" = None /\
  tc (parent_of (refs (run_ops fate_ok gt0 [(0, OpCreateChild "base" "dev")] w_dangling)))
     "base" "base".
Proof.
  split; [vm_compute; reflexivity|].
  eapply tc_l; [|apply tc_once].
  - eexists. split; [vm_compute; reflexivity|]. split; [reflexivity|discriminate].
  - eexists. split; [vm_compute; reflexivity|]. split; [reflexivity|discriminate].
Qed.


Example w_tree_refs :
  refs w_tree = {[ "base" := mkRef "base" "" "layer_1000" 1000 ∅;
                   "dev" := mkRef "dev" "base" "layer_1500" 1500 ∅ ]}.
Proof. vm_compute. reflexivity. Qed.


(** ** The lower-directory walk on a store with a cycle *)

(** A ref that is its own parent keeps [buildLowerDirs] in its loop. *)
Lemma buildLowerDirs_loop_self_parent (os : Fate) (gt : GoTree) (r : Ref)
    (w : World) :
  Parent r <> "" -> refs w !! Parent r = Some r ->
  forall fuel dirs, buildLowerDirs_loop gt fuel dirs r w = (None, w).
Proof.
  intros Hne Hself fuel. induction fuel as [|fuel IH]; intros dirs.
  - reflexivity.
  - simpl. destruct (String.eqb (Parent r) "") eqn:He.
    + apply String.eqb_eq in He. contradiction.
    + run_M. rewrite Hself. apply IH.
Qed.

Lemma Mount_self_parent (os : Fate) (gt : GoTree) (refName mountPoint : string)
    (r : Ref) (w : World) :
  refs w !! refName = Some r ->
  Parent r <> "" -> refs w !! Parent r = Some r ->
  errno_of os (trace w) (MkdirAll mountPoint) = None ->
  fst (isMounted mountPoint w) = false ->
  forall fuel, fst (Mount os gt fuel refName mountPoint w) = None.
Proof.
  intros Hr Hne Hself Hmk Hnm fuel. unfold Mount, buildLowerDirs.
  run_M. rewrite Hr, Hmk. simpl_world.
  cbv beta iota zeta delta [isMounted gets fst] in Hnm. rewrite Hnm.
  rewrite (buildLowerDirs_loop_self_parent os gt r
             (record_event (MkdirAll mountPoint, None) w) Hne Hself).
  reflexivity.
Qed.

(** The [size] command stops on that store: its guard sees the layer id
    come back. *)
Example size_walk_self_parent :
  fst (size_walk gt0 2 ∅ [] self_parent_ref w_self_parent)
  = Some ["/var/lib/gotree/layers/layer_2000"].
Proof. vm_compute. reflexivity. Qed.

(** C4 (the code at the failing input): on the store left by
    [create base] and [create base base], where [base] is its own
    parent, the walk of [buildLowerDirs] has not returned after any
    number of steps, and so neither has [Mount]. *)
Theorem buildLowerDirs_cycle_never_returns :
  forall fuel,
    fst (buildLowerDirs gt0 fuel self_parent_ref w_self_parent) = None /\
    fst (Mount fate_ok gt0 fuel "base" "/mnt/base" w_self_parent) = None.
Proof.
  intros fuel.
  assert (Hself : refs w_self_parent !! "base" = Some self_parent_ref)
    by (vm_compute; reflexivity).
  split.
  - unfold buildLowerDirs.
    assert (Hne : Parent self_parent_ref <> "") by discriminate.
    rewrite (buildLowerDirs_loop_self_parent fate_ok gt0 _ _ Hne Hself).
    reflexivity.
  - apply (Mount_self_parent fate_ok gt0 "base" "/mnt/base" self_parent_ref).
    + exact Hself.
    + discriminate.
    + exact Hself.
    + reflexivity.
    + vm_compute. reflexivity.
Qed.

(** ** The walks on every other store *)



(** The walk of the [size] command returns on every store, cycles
    included: each step adds a layer id of the store to [seen]. *)
Lemma size_walk_bounded (gt : GoTree) (w : World) :
  forall (fuel : nat) (seen : gset string) (visited : list string) (r : Ref),
    (exists k, refs w !! k = Some r) ->
    (size (layer_ids (refs w) ∖ seen) < fuel)%nat ->
    exists l, size_walk gt fuel seen visited r w = (Some l, w).
Proof.
  induction fuel as [|fuel IH]; intros seen visited r [k Hk] Hsize.
  - lia.
  - simpl. destruct (bool_decide (LayerID r ∈ seen)) eqn:Hseen; [eauto|].
    apply bool_decide_eq_false in Hseen.
    destruct (String.eqb (Parent r) ""); [eauto|]. run_M.
    destruct (refs w !! Parent r) as [parent|] eqn:Hp; [|eauto].
    apply IH; [eauto|].
    assert (Hid : LayerID r ∈ layer_ids (refs w)).
    { unfold layer_ids. apply elem_of_map_img. exists k.
      rewrite lookup_fmap, Hk. reflexivity. }
    assert (Hsub : layer_ids (refs w) ∖ ({[LayerID r]} ∪ seen)
                   ⊂ layer_ids (refs w) ∖ seen).
    { split.
      - intros x Hx. apply elem_of_difference in Hx as [Hx Hn].
        apply elem_of_difference. split; [exact Hx|].
        intros Hs. apply Hn, elem_of_union. right. exact Hs.
      - intros Hsup. specialize (Hsup (LayerID r)).
        rewrite !elem_of_difference, elem_of_union, elem_of_singleton in Hsup.
        destruct Hsup as [_ Hn]; [split; assumption|].
        apply Hn. left. reflexivity. }
    apply subset_size in Hsub. lia.
Qed.

Lemma size_walk_terminates (gt : GoTree) (w : World) (r : Ref) :
  forall fuel, (size (layer_ids (refs w)) + 1 < fuel)%nat ->
    exists l, size_walk gt fuel ∅ [] r w = (Some l, w).
Proof.
  intros [|fuel] Hfuel; [lia|].
  simpl. destruct (bool_decide (LayerID r ∈ (∅ : gset string))) eqn:Hseen.
  { apply bool_decide_eq_true in Hseen. set_solver. }
  destruct (String.eqb (Parent r) ""); [eauto|]. run_M.
  destruct (refs w !! Parent r) as [parent|] eqn:Hp; [|eauto].
  apply size_walk_bounded; [eauto|].
  assert (Hle : (size (layer_ids (refs w) ∖ ({[LayerID r]} ∪ ∅))
                 <= size (layer_ids (refs w)))%nat).
  { apply subseteq_size. intros x Hx.
    apply elem_of_difference in Hx as [Hx _]. exact Hx. }
  lia.
Qed.

(** ** The overlay that [Mount] composes *)

Section Overlay.

Variables (os : Fate) (gt : GoTree).

Lemma buildLowerDirs_loop_Ancestors (w : World) (r : Ref) (l : list Ref) :
  Ancestors (refs w) r l ->
  forall fuel dirs,
    (length l < fuel)%nat ->
    buildLowerDirs_loop gt fuel dirs r w
    = (Some (dirs ++ map (fun a => layerPath gt (LayerID a)) l), w).
Proof.
  induction 1 as [r Hroot | r p l Hne Hp Hanc IH]; intros fuel dirs Hfuel.
  - destruct fuel as [|fuel]; [simpl in Hfuel; lia|].
    simpl. rewrite Hroot. simpl. rewrite app_nil_r. reflexivity.
  - destruct fuel as [|fuel]; [simpl in Hfuel; lia|].
    simpl. destruct (String.eqb (Parent r) "") eqn:He.
    + apply String.eqb_eq in He. contradiction.
    + run_M. rewrite Hp. rewrite IH by (simpl in Hfuel; lia).
      rewrite <- app_assoc. reflexivity.
Qed.

Lemma buildLowerDirs_Ancestors (w : World) (r : Ref) (l : list Ref) :
  Ancestors (refs w) r l ->
  forall fuel, (length l < fuel)%nat ->
    buildLowerDirs gt fuel r w
    = (Some (map (fun a => layerPath gt (LayerID a)) l), w).
Proof.
  intros Hanc fuel Hfuel. unfold buildLowerDirs.
  rewrite (buildLowerDirs_loop_Ancestors w r l Hanc) by assumption.
  reflexivity.
Qed.

End Overlay.

(** C5: for every ref whose chain of parents ends at a root, [Mount]
    (once the mount point and the work directory exist and the mount
    point is free) returns and asks for an overlay whose upper layer is
    the ref's own layer directory and whose lower layers are the
    ancestors' layer directories from the nearest parent to the root; for
    a root ref the ref's own directory is the only lower layer and the
    upper layer. *)
Theorem Mount_composes_overlay (os : Fate) (gt : GoTree) (w : World)
    (refName mountPoint : string) (ref : Ref) (l : list Ref) :
  refs w !! refName = Some ref ->
  Ancestors (refs w) ref l ->
  errno_of os (trace w) (MkdirAll mountPoint) = None ->
  fst (isMounted mountPoint w) = false ->
  errno_of os (trace w ++ [(MkdirAll mountPoint, None)])
    (MkdirAll (workPath gt (LayerID ref))) = None ->
  forall fuel, (length l < fuel)%nat ->
    exists res call_result rest,
      fst (Mount os gt fuel refName mountPoint w) = Some res /\
      trace (snd (Mount os gt fuel refName mountPoint w))
      = trace w ++
        [(MkdirAll mountPoint, None);
         (MkdirAll (workPath gt (LayerID ref)), None);
         (SysMount "overlay" mountPoint "overlay" 0
            (overlay_opts (lowers_of gt ref l)
               (layerPath gt (LayerID ref)) (workPath gt (LayerID ref))),
          call_result)] ++ rest.
Proof.
  intros Hr Hanc Hmk Hnm Hwk fuel Hfuel. unfold Mount.
  run_M. rewrite Hr, Hmk. simpl_world.
  cbv beta iota zeta delta [isMounted gets fst] in Hnm. rewrite Hnm.
  rewrite (buildLowerDirs_Ancestors gt
             (record_event (MkdirAll mountPoint, None) w) ref l Hanc fuel Hfuel).
  simpl_world. rewrite Hwk. simpl_world.
  assert (Hopts :
    match map (fun a => layerPath gt (LayerID a)) l with
    | [] => "lowerdir=" +:+ layerPath gt (LayerID ref) +:+ ",upperdir="
            +:+ layerPath gt (LayerID ref) +:+ ",workdir="
            +:+ workPath gt (LayerID ref)
    | _ :: _ => "lowerdir="
            +:+ strings.Join (map (fun a => layerPath gt (LayerID a)) l) ":"
            +:+ ",upperdir=" +:+ layerPath gt (LayerID ref) +:+ ",workdir="
            +:+ workPath gt (LayerID ref)
    end
    = overlay_opts (lowers_of gt ref l) (layerPath gt (LayerID ref))
        (workPath gt (LayerID ref))).
  { destruct l; reflexivity. }
  rewrite Hopts. clear Hopts.
  repeat rewrite <- app_assoc. simpl app.
  case_fate; simpl_world.
  - case_fate; simpl_world.
    + do 3 eexists. split; [reflexivity|].
      repeat rewrite <- app_assoc. simpl app. reflexivity.
    + do 3 eexists. split; [reflexivity|].
      repeat rewrite <- app_assoc. simpl app. reflexivity.
  - case_fate; simpl_world.
    + do 3 eexists. split; [reflexivity|].
      repeat rewrite <- app_assoc. simpl app. reflexivity.
    + do 3 eexists. split; [reflexivity|].
      repeat rewrite <- app_assoc. simpl app. reflexivity.
Qed.

Lemma Mount_composes_overlay_witness :
  exists res call_result rest,
    fst (Mount fate_ok gt0 2 "dev" "/mnt/dev" w_tree) = Some res /\
    trace (snd (Mount fate_ok gt0 2 "dev" "/mnt/dev" w_tree))
    = trace w_tree ++
      [(MkdirAll "/mnt/dev", None);
       (MkdirAll (workPath gt0 "layer_1500"), None);
       (SysMount "overlay" "/mnt/dev" "overlay" 0
          (overlay_opts (lowers_of gt0 dev_ref [root_ref])
             (layerPath gt0 "layer_1500") (workPath gt0 "layer_1500")),
        call_result)] ++ rest.
Proof.
  apply (Mount_composes_overlay fate_ok gt0 w_tree "dev" "/mnt/dev" dev_ref
           [root_ref]).
  - vm_compute. reflexivity.
  - apply Ancestors_step.
    + discriminate.
    + vm_compute. reflexivity.
    + apply Ancestors_root. reflexivity.
  - reflexivity.
  - vm_compute. reflexivity.
  - reflexivity.
  - simpl. lia.
Defined.

Example Mount_dev_options :
  overlay_opts (lowers_of gt0 dev_ref [root_ref])
    (layerPath gt0 "layer_1500") (workPath gt0 "layer_1500")
  = "lowerdir=/var/lib/gotree/layers/layer_1000,upperdir=/var/lib/gotree/layers/layer_1500,workdir=/var/lib/gotree/work/layer_1500".
Proof. vm_compute. reflexivity. Qed.

Example Mount_root_options :
  overlay_opts (lowers_of gt0 root_ref [])
    (layerPath gt0 "layer_1000") (workPath gt0 "layer_1000")
  = "lowerdir=/var/lib/gotree/layers/layer_1000,upperdir=/var/lib/gotree/layers/layer_1000,workdir=/var/lib/gotree/work/layer_1000".
Proof. vm_compute. reflexivity. Qed.

(** ** The deletion guard *)

Lemma existsb_map_values {V} (m : gmap string V) (f : V -> bool) :
  existsb f (map snd (map_to_list m)) = true <->
  exists k v, m !! k = Some v /\ f v = true.
Proof.
  rewrite existsb_exists. split.
  - intros (v & Hin & Hf). apply in_map_iff in Hin.
    destruct Hin as ([k v'] & Heq & Hin). simpl in Heq. subst v'.
    apply list_elem_of_In, elem_of_map_to_list in Hin. eauto.
  - intros (k & v & Hl & Hf). exists v. split; [|exact Hf].
    apply in_map_iff. exists (k, v). split; [reflexivity|].
    apply list_elem_of_In, elem_of_map_to_list. exact Hl.
Qed.

Lemma HasChildren_true (w : World) (name : string) :
  has_child (refs w) name ->
  HasChildren name w = (Ok true, w).
Proof.
  intros (c & r & Hl & Hp). unfold HasChildren, ListRefs. run_M.
  replace (existsb _ _) with true; [reflexivity|].
  symmetry. apply existsb_map_values. exists c, r. split; [exact Hl|].
  apply String.eqb_eq. exact Hp.
Qed.

Lemma HasChildren_false (w : World) (name : string) :
  ~ has_child (refs w) name ->
  HasChildren name w = (Ok false, w).
Proof.
  intros Hno. unfold HasChildren, ListRefs. run_M.
  destruct (existsb _ _) eqn:He; [|reflexivity].
  exfalso. apply Hno. apply existsb_map_values in He.
  destruct He as (c & r & Hl & Hp). apply String.eqb_eq in Hp.
  exists c, r. auto.
Qed.

Lemma IsMountedRef_true (w : World) (name : string) :
  has_session (mounts w) name ->
  IsMountedRef name w = (Ok true, w).
Proof.
  intros (k & info & Hl & Hi). unfold IsMountedRef. run_M.
  replace (existsb _ _) with true; [reflexivity|].
  symmetry. apply existsb_map_values. exists k, info. split; [exact Hl|].
  apply String.eqb_eq. exact Hi.
Qed.


Lemma no_child_by_scan (st : gmap string Ref) (name : string) :
  existsb (fun r => String.eqb (Parent r) name) (map snd (map_to_list st)) = false ->
  ~ has_child st name.
Proof.
  intros Hscan (c & r & Hl & Hp).
  assert (H : existsb (fun r => String.eqb (Parent r) name)
                (map snd (map_to_list st)) = true).
  { apply existsb_map_values. exists c, r. split; [exact Hl|].
    apply String.eqb_eq. exact Hp. }
  congruence.
Qed.

Example w_mounted_session :
  mounts w_mounted !! "dev"
  = Some (<["ref" := "dev"]> (<["mountPoint" := "/mnt/dev"]> ∅)) /\
  mtab w_mounted
  = [mkMountEntry "overlay" "/mnt/dev" "overlay"
       (overlay_opts ["/var/lib/gotree/layers/layer_1000"]
          "/var/lib/gotree/layers/layer_1500"
          "/var/lib/gotree/work/layer_1500")].
Proof. split; vm_compute; reflexivity. Qed.


(** The guard reads the session records only: a ref that is in the live
    mount table but has no session record is deleted. *)
Example DeleteRef_ignores_mount_table :
  let w := set_mounts (fun _ => ∅) w_mounted in
  mtab w <> [] /\
  fst (DeleteRef fate_ok gt0 "dev" false w) = Ok tt /\
  refs (snd (DeleteRef fate_ok gt0 "dev" false w)) !! "dev" = None.
Proof. split; [discriminate|]. split; vm_compute; reflexivity. Qed.

(** ** The runs of the unmount loop *)

Section Unmount_runs.

Variables (os : Fate) (gt : GoTree).

Lemma exec_Run_run (argv : list string) (w : World) :
  exec_Run os argv w
  = (tt, record_event (Exec argv, errno_of os (trace w) (Exec argv)) w).
Proof. reflexivity. Qed.

Lemma for_each_exec_run (f : string -> list string) (pids : list string) :
  forall w, exists evs w',
    for_each pids (fun pid => exec_Run os (f pid)) w = (tt, w') /\
    trace w' = trace w ++ evs /\ mounts w' = mounts w /\
    Forall (fun e => is_exec_or_sleep e = true) evs.
Proof.
  induction pids as [|pid pids IH]; intros w.
  - exists [], w. rewrite app_nil_r. repeat split. constructor.
  - cbn [for_each]. unfold bind at 1. rewrite exec_Run_run.
    destruct (IH (record_event (Exec (f pid), errno_of os (trace w) (Exec (f pid))) w))
      as (evs & w' & Hrun & Htr & Hm & Hall).
    rewrite Hrun.
    exists ((Exec (f pid), errno_of os (trace w) (Exec (f pid))) :: evs), w'.
    split; [reflexivity|]. split.
    + rewrite Htr. simpl_world. rewrite <- app_assoc. reflexivity.
    + split; [exact Hm|]. constructor; [reflexivity|exact Hall].
Qed.

Lemma killProcessesUsingMount_run (absPath : string) (w : World) :
  exists evs w',
    killProcessesUsingMount os absPath w = (tt, w') /\
    trace w' = trace w ++ evs /\ mounts w' = mounts w /\
    Forall (fun e => is_exec_or_sleep e = true) evs.
Proof.
  unfold killProcessesUsingMount. unfold bind at 1. rewrite exec_Run_run.
  cbv beta iota zeta delta
    [bind ret gets modify syscall emit time_Sleep exec_Output].
  set (e1 := (Exec ["fuser"; "-km"; absPath],
              errno_of os (trace w) (Exec ["fuser"; "-km"; absPath]))).
  set (w1 := record_event e1 w).
  set (e2 := (Exec ["lsof"; "-t"; "+D"; absPath],
              errno_of os (trace w1) (Exec ["lsof"; "-t"; "+D"; absPath]))).
  set (w2 := record_event e2 w1).
  assert (Hbase : trace w2 = trace w ++ [e1; e2]).
  { subst w2 w1. simpl_world. rewrite <- app_assoc. reflexivity. }
  destruct (errno_of os (trace w1) (Exec ["lsof"; "-t"; "+D"; absPath])) eqn:Hl.
  - exists [e1; e2], w2. repeat split; try assumption.
    repeat constructor.
  - destruct (String.eqb (stdout_of os (trace w1) (Exec ["lsof"; "-t"; "+D"; absPath])) "").
    + exists [e1; e2], w2. repeat split; try assumption.
      repeat constructor.
    + set (pids := strings.Fields _).
      destruct (for_each_exec_run (fun pid => ["kill"; "-TERM"; pid]) pids w2)
        as (evs3 & w3 & Hrun3 & Htr3 & Hm3 & Hall3).
      rewrite Hrun3.
      set (w4 := set_clock (fun t => t + 100 * Millisecond)
                   (record_event (Sleep (100 * Millisecond), None) w3)).
      destruct (for_each_exec_run (fun pid => ["kill"; "-KILL"; pid]) pids w4)
        as (evs5 & w5 & Hrun5 & Htr5 & Hm5 & Hall5).
      fold w4. rewrite Hrun5.
      exists ([e1; e2] ++ evs3 ++ [(Sleep (100 * Millisecond), None)] ++ evs5), w5.
      split; [reflexivity|]. split; [|split].
      * rewrite Htr5. subst w4. simpl_world. rewrite Htr3, Hbase.
        repeat rewrite <- app_assoc. reflexivity.
      * rewrite Hm5. subst w4. simpl_world. rewrite Hm3. reflexivity.
      * apply Forall_app. split; [repeat constructor|].
        apply Forall_app. split; [exact Hall3|].
        apply Forall_app. split; [repeat constructor|exact Hall5].
Qed.

(** What precedes the unmount call of iteration [i], whatever follows. *)
Lemma prelude_run (force : bool) (absPath : string) (i : Z) (w : World) :
  exists kills w0,
    trace w0 = trace w ++ backoff i ++ kills /\
    mounts w0 = mounts w /\
    kills_ok force i kills /\
    forall B (k : M B),
      ((if 0 <? i then
          time_Sleep (100 * (i + 1) * Millisecond) ;;; syscall_Sync
        else ret tt) ;;;
       (if force && (0 <? i) then
          killProcessesUsingMount os absPath ;;;
          time_Sleep (200 * Millisecond)
        else ret tt) ;;; k) w = k w0.
Proof.
  unfold backoff. destruct (0 <? i) eqn:Hi.
  - destruct force; simpl andb; cbv iota.
    + set (w1 := record_event (SysSync, None)
                   (set_clock (fun t => t + 100 * (i + 1) * Millisecond)
                      (record_event (Sleep (100 * (i + 1) * Millisecond), None) w))).
      destruct (killProcessesUsingMount_run absPath w1)
        as (evs & w2 & Hrun & Htr & Hm & Hall).
      exists (evs ++ [(Sleep (200 * Millisecond), None)]).
      exists (set_clock (fun t => t + 200 * Millisecond)
                (record_event (Sleep (200 * Millisecond), None) w2)).
      split; [|split; [|split]].
      * simpl_world. rewrite Htr. subst w1. simpl_world.
        repeat rewrite <- app_assoc. reflexivity.
      * simpl_world. rewrite Hm. reflexivity.
      * split; [|intros H; rewrite Hi in H; discriminate H].
        apply Forall_app. split; [exact Hall|repeat constructor].
      * intros B k. run_M. fold w1. rewrite Hrun. reflexivity.
    + exists [].
      exists (record_event (SysSync, None)
                (set_clock (fun t => t + 100 * (i + 1) * Millisecond)
                   (record_event (Sleep (100 * (i + 1) * Millisecond), None) w))).
      split; [|split; [|split]].
      * simpl_world. repeat rewrite <- app_assoc. reflexivity.
      * reflexivity.
      * split; [constructor|reflexivity].
      * intros B k. reflexivity.
  - rewrite andb_false_r. exists [], w.
    split; [|split; [|split]].
    + rewrite app_nil_r. reflexivity.
    + reflexivity.
    + split; [constructor|reflexivity].
    + intros B k. reflexivity.
Qed.

Lemma remove_mountFile_run (mountPoint : string) (w : World) :
  exists rm w',
    remove_mountFile os gt mountPoint w = (tt, w') /\
    trace w' = trace w ++ [(Remove (mountFile gt mountPoint), rm)] /\
    (mounts w' = mounts w \/
     mounts w' = delete (filepath.Base mountPoint) (mounts w)).
Proof.
  unfold remove_mountFile. run_M.
  destruct (bool_decide _).
  - case_fate; simpl_world.
    + eexists _, _. split; [reflexivity|]. simpl_world.
      split; [reflexivity|auto].
    + eexists _, _. split; [reflexivity|]. simpl_world.
      split; [reflexivity|auto].
  - eexists _, _. split; [reflexivity|]. simpl_world.
    split; [reflexivity|auto].
Qed.

Lemma syscall_Unmount_run (target : string) (flags : Z) (w : World) :
  exists w',
    syscall_Unmount os target flags w
    = (errno_of os (trace w) (SysUnmount target flags), w') /\
    trace w' = trace w ++ [(SysUnmount target flags,
                            errno_of os (trace w) (SysUnmount target flags))] /\
    mounts w' = mounts w.
Proof.
  run_M. case_fate; eexists; split; try reflexivity; simpl_world;
    rewrite ?Hfate; split; reflexivity.
Qed.

Lemma unmount_loop_run (force : bool) (mountPoint absPath : string)
    (maxRetries : Z) (n : nat) :
  forall (i : Z) (lastErr : option Z) (w : World),
  exists evs res w',
    unmount_loop os gt force mountPoint absPath maxRetries n i lastErr w
    = (res, w') /\
    trace w' = trace w ++ evs /\
    LoopRun force mountPoint (mountFile gt mountPoint) maxRetries n i lastErr
      evs res /\
    match res with
    | Error _ => mounts w' = mounts w
    | Ok _ => mounts w' = mounts w \/
              mounts w' = delete (filepath.Base mountPoint) (mounts w)
    end.
Proof.
  induction n as [|n IH]; intros i lastErr w.
  - exists [], (Error (ErrUnmountRetries lastErr)), w.
    split; [reflexivity|]. rewrite app_nil_r.
    split; [reflexivity|]. split; [constructor|reflexivity].
  - cbn [unmount_loop].
    destruct (prelude_run force absPath i w)
      as (kills & w0 & Htr0 & Hm0 & Hk & Hrun0).
    rewrite Hrun0. clear Hrun0.
    destruct (syscall_Unmount_run mountPoint 0 w0) as (w1 & Hrun1 & Htr1 & Hm1).
    unfold bind at 1. rewrite Hrun1.
    destruct (errno_of os (trace w0) (SysUnmount mountPoint 0)) as [e|].
    + (* the plain unmount failed *)
      destruct (i =? maxRetries - 1) eqn:Hlast.
      * apply Z.eqb_eq in Hlast.
        destruct (syscall_Unmount_run mountPoint MNT_DETACH w1)
          as (w2 & Hrun2 & Htr2 & Hm2).
        unfold bind at 1. rewrite Hrun2.
        destruct (errno_of os (trace w1) (SysUnmount mountPoint MNT_DETACH))
          as [e'|].
        -- destruct (IH (i + 1) (Some e) w2)
             as (evs & res & w3 & Hrun3 & Htr3 & Hlr & Hm3).
           exists (backoff i ++ kills ++
                   (SysUnmount mountPoint 0, Some e)
                   :: (SysUnmount mountPoint MNT_DETACH, Some e') :: evs),
                  res, w3.
           split; [exact Hrun3|]. split; [|split].
           ++ rewrite Htr3, Htr2, Htr1, Htr0.
              repeat rewrite <- app_assoc. reflexivity.
           ++ apply LoopRun_detach_failed; assumption.
           ++ destruct res; [destruct Hm3 as [Hm3|Hm3]|];
                rewrite Hm3, Hm2, Hm1, Hm0; auto.
        -- destruct (remove_mountFile_run mountPoint w2)
             as (rm & w3 & Hrun3 & Htr3 & Hm3).
           unfold bind, ret. rewrite Hrun3.
           exists (backoff i ++ kills ++
                   [(SysUnmount mountPoint 0, Some e);
                    (SysUnmount mountPoint MNT_DETACH, None);
                    (Remove (mountFile gt mountPoint), rm)]),
                  (Ok tt), w3.
           split; [reflexivity|]. split; [|split].
           ++ rewrite Htr3, Htr2, Htr1, Htr0.
              repeat rewrite <- app_assoc. reflexivity.
           ++ apply LoopRun_detached; assumption.
           ++ rewrite Hm2, Hm1, Hm0 in Hm3. exact Hm3.
      * apply Z.eqb_neq in Hlast.
        destruct (IH (i + 1) (Some e) w1)
          as (evs & res & w3 & Hrun3 & Htr3 & Hlr & Hm3).
        exists (backoff i ++ kills ++ (SysUnmount mountPoint 0, Some e) :: evs),
               res, w3.
        split; [exact Hrun3|]. split; [|split].
        -- rewrite Htr3, Htr1, Htr0.
           repeat rewrite <- app_assoc. reflexivity.
        -- apply LoopRun_retry; assumption.
        -- destruct res; [destruct Hm3 as [Hm3|Hm3]|];
             rewrite Hm3, Hm1, Hm0; auto.
    + (* the plain unmount succeeded *)
      destruct (remove_mountFile_run mountPoint w1)
        as (rm & w3 & Hrun3 & Htr3 & Hm3).
      unfold bind, ret. rewrite Hrun3.
      exists (backoff i ++ kills ++
              [(SysUnmount mountPoint 0, None);
               (Remove (mountFile gt mountPoint), rm)]),
             (Ok tt), w3.
      split; [reflexivity|]. split; [|split].
      * rewrite Htr3, Htr1, Htr0. repeat rewrite <- app_assoc. reflexivity.
      * apply LoopRun_unmounted; assumption.
      * rewrite Hm1, Hm0 in Hm3. exact Hm3.
Qed.

End Unmount_runs.

(** ** Reading a run of the loop *)

Section LoopRun_facts.

Variables (force : bool) (mp mf : string) (maxRetries : Z).

Lemma is_attempt_plain (r : option Z) : is_attempt mp (SysUnmount mp 0, r) = true.
Proof. simpl. rewrite String.eqb_refl. reflexivity. Qed.

Lemma is_attempt_detach (r : option Z) :
  is_attempt mp (SysUnmount mp MNT_DETACH, r) = false.
Proof. simpl. rewrite String.eqb_refl. reflexivity. Qed.

Lemma backoff_quiet (i : Z) :
  Forall (fun e => is_unmount e = false /\ is_exec e = false) (backoff i).
Proof. unfold backoff. destruct (0 <? i); repeat constructor. Qed.

Lemma exec_or_sleep_not_unmount (e : Event) :
  is_exec_or_sleep e = true -> is_unmount e = false.
Proof. destruct e as [[] r]; simpl; congruence. Qed.

Lemma not_unmount_not_attempt (e : Event) :
  is_unmount e = false -> is_attempt mp e = false.
Proof. destruct e as [[] r]; simpl; congruence. Qed.

Lemma last_attempt_error_app (init : option Z) (l1 l2 : list Event) :
  last_attempt_error mp init (l1 ++ l2)
  = last_attempt_error mp (last_attempt_error mp init l1) l2.
Proof. unfold last_attempt_error. apply fold_left_app. Qed.

Lemma last_attempt_error_quiet (init : option Z) (l : list Event) :
  Forall (fun e => is_unmount e = false) l ->
  last_attempt_error mp init l = init.
Proof.
  induction 1 as [|e l He _ IH]; [reflexivity|].
  unfold last_attempt_error in *. simpl.
  rewrite (not_unmount_not_attempt e He). exact IH.
Qed.

Lemma kills_not_unmount (i : Z) (kills : list Event) :
  kills_ok force i kills -> Forall (fun e => is_unmount e = false) kills.
Proof.
  intros [Hall _]. eapply Forall_impl; [exact Hall|].
  intros e He. apply exec_or_sleep_not_unmount, He.
Qed.

Lemma backoff_not_unmount (i : Z) :
  Forall (fun e => is_unmount e = false) (backoff i).
Proof.
  eapply Forall_impl; [apply backoff_quiet|]. intros e [H _]. exact H.
Qed.

(** A run is a sequence of attempts, each made of its wait, the kills
    and one plain unmount, followed by a tail without plain unmounts. *)
Lemma LoopRun_schedule (n : nat) (i : Z) (lastErr : option Z)
    (evs : list Event) (res : result unit) :
  LoopRun force mp mf maxRetries n i lastErr evs res ->
  maxRetries = i + Z.of_nat n ->
  exists attempts tail,
    evs = concat attempts ++ tail /\
    (length attempts <= n)%nat /\
    ((0 < n)%nat -> (0 < length attempts)%nat) /\
    (forall j seg, attempts !! j = Some seg ->
       exists kills r,
         seg = backoff (i + Z.of_nat j) ++ kills ++ [(SysUnmount mp 0, r)] /\
         kills_ok force (i + Z.of_nat j) kills) /\
    Forall (fun e => is_attempt mp e = false) tail.
Proof.
  induction 1 as
    [ i lastErr
    | n i lastErr kills rm Hk
    | n i lastErr kills e evs res Hk Hnl Hrun IH
    | n i lastErr kills e rm Hk Hl
    | n i lastErr kills e e' evs res Hk Hl Hrun IH ]; intros Hmax.
  - exists [], []. repeat split; simpl; try lia; try constructor.
    intros j seg Hj. rewrite lookup_nil in Hj. discriminate.
  - exists [backoff i ++ kills ++ [(SysUnmount mp 0, None)]], [(Remove mf, rm)].
    split; [|split; [|split; [|split]]].
    + simpl. rewrite app_nil_r. repeat rewrite <- app_assoc. reflexivity.
    + simpl. lia.
    + simpl. lia.
    + intros [|j] seg Hj; simpl in Hj; [|rewrite lookup_nil in Hj; discriminate].
      injection Hj as <-. exists kills, None.
      replace (i + Z.of_nat 0) with i by lia. auto.
    + repeat constructor.
  - destruct IH as (attempts & tail & Hevs & Hlen & Hpos & Hseg & Htail); [lia|].
    exists ((backoff i ++ kills ++ [(SysUnmount mp 0, Some e)]) :: attempts), tail.
    split; [|split; [|split; [|split]]].
    + simpl. rewrite Hevs. repeat rewrite <- app_assoc. reflexivity.
    + simpl. lia.
    + simpl. lia.
    + intros [|j] seg Hj; simpl in Hj.
      * injection Hj as <-. exists kills, (Some e).
        replace (i + Z.of_nat 0) with i by lia. auto.
      * destruct (Hseg j seg Hj) as (kills' & r & Hs & Hk').
        exists kills', r.
        replace (i + Z.of_nat (S j)) with (i + 1 + Z.of_nat j) by lia. auto.
    + exact Htail.
  - exists [backoff i ++ kills ++ [(SysUnmount mp 0, Some e)]],
           [(SysUnmount mp MNT_DETACH, None); (Remove mf, rm)].
    split; [|split; [|split; [|split]]].
    + simpl. rewrite app_nil_r. repeat rewrite <- app_assoc. reflexivity.
    + simpl. lia.
    + simpl. lia.
    + intros [|j] seg Hj; simpl in Hj; [|rewrite lookup_nil in Hj; discriminate].
      injection Hj as <-. exists kills, (Some e).
      replace (i + Z.of_nat 0) with i by lia. auto.
    + constructor; [apply is_attempt_detach|]. repeat constructor.
  - destruct IH as (attempts & tail & Hevs & Hlen & Hpos & Hseg & Htail); [lia|].
    assert (Hn : n = O) by lia. subst n.
    destruct attempts as [|a attempts]; [|simpl in Hlen; lia].
    exists [backoff i ++ kills ++ [(SysUnmount mp 0, Some e)]],
           ((SysUnmount mp MNT_DETACH, Some e') :: tail).
    split; [|split; [|split; [|split]]].
    + simpl. rewrite app_nil_r. rewrite Hevs. simpl.
      repeat rewrite <- app_assoc. reflexivity.
    + simpl. lia.
    + simpl. lia.
    + intros [|j] seg Hj; simpl in Hj; [|rewrite lookup_nil in Hj; discriminate].
      injection Hj as <-. exists kills, (Some e).
      replace (i + Z.of_nat 0) with i by lia. auto.
    + constructor; [apply is_attempt_detach|exact Htail].
Qed.

(** A run that fails reports the error of its last plain unmount, and
    none of its unmount calls succeeded. *)
Lemma LoopRun_error (n : nat) (i : Z) (lastErr : option Z)
    (evs : list Event) (res : result unit) :
  LoopRun force mp mf maxRetries n i lastErr evs res ->
  forall err, res = Error err ->
    err = ErrUnmountRetries (last_attempt_error mp lastErr evs) /\
    Forall (fun ev => is_unmount ev = true -> snd ev <> None) evs.
Proof.
  induction 1 as
    [ i lastErr
    | n i lastErr kills rm Hk
    | n i lastErr kills e evs res Hk Hnl Hrun IH
    | n i lastErr kills e rm Hk Hl
    | n i lastErr kills e e' evs res Hk Hl Hrun IH ]; intros err Herr.
  - injection Herr as <-. split; [reflexivity|constructor].
  - discriminate.
  - destruct (IH err Herr) as [He Hall]. split.
    + rewrite !last_attempt_error_app.
      rewrite (last_attempt_error_quiet _ _ (backoff_not_unmount i)).
      rewrite (last_attempt_error_quiet _ _ (kills_not_unmount i kills Hk)).
      unfold last_attempt_error at 1. cbn [fold_left].
      rewrite is_attempt_plain. exact He.
    + apply Forall_app. split.
      { eapply Forall_impl; [apply backoff_not_unmount|].
        intros ev H1 H2. simpl in *. congruence. }
      apply Forall_app. split.
      { eapply Forall_impl; [apply (kills_not_unmount i kills Hk)|].
        intros ev H1 H2. simpl in *. congruence. }
      constructor; [intros _; discriminate|exact Hall].
  - discriminate.
  - destruct (IH err Herr) as [He Hall]. split.
    + rewrite !last_attempt_error_app.
      rewrite (last_attempt_error_quiet _ _ (backoff_not_unmount i)).
      rewrite (last_attempt_error_quiet _ _ (kills_not_unmount i kills Hk)).
      unfold last_attempt_error at 1. cbn [fold_left].
      rewrite is_attempt_plain, is_attempt_detach. exact He.
    + apply Forall_app. split.
      { eapply Forall_impl; [apply backoff_not_unmount|].
        intros ev H1 H2. simpl in *. congruence. }
      apply Forall_app. split.
      { eapply Forall_impl; [apply (kills_not_unmount i kills Hk)|].
        intros ev H1 H2. simpl in *. congruence. }
      constructor; [intros _; discriminate|].
      constructor; [intros _; discriminate|exact Hall].
Qed.

(** A run that succeeds contains an unmount call that succeeded. *)
Lemma LoopRun_ok (n : nat) (i : Z) (lastErr : option Z)
    (evs : list Event) (res : result unit) :
  LoopRun force mp mf maxRetries n i lastErr evs res ->
  forall u, res = Ok u ->
    exists flags, (SysUnmount mp flags, None) ∈ evs.
Proof.
  induction 1 as
    [ i lastErr
    | n i lastErr kills rm Hk
    | n i lastErr kills e evs res Hk Hnl Hrun IH
    | n i lastErr kills e rm Hk Hl
    | n i lastErr kills e e' evs res Hk Hl Hrun IH ]; intros u Hu.
  - discriminate.
  - exists 0. rewrite !elem_of_app. right. right. left.
  - destruct (IH u Hu) as (flags & Hin). exists flags.
    rewrite !elem_of_app. right. right. right. exact Hin.
  - exists MNT_DETACH. rewrite !elem_of_app. right. right. right. left.
  - destruct (IH u Hu) as (flags & Hin). exists flags.
    rewrite !elem_of_app. right. right. do 2 right. exact Hin.
Qed.

(** A run never fails in another way than by exhausting its retries. *)
Lemma LoopRun_result (n : nat) (i : Z) (lastErr : option Z)
    (evs : list Event) (res : result unit) :
  LoopRun force mp mf maxRetries n i lastErr evs res ->
  res = Ok tt \/ exists last, res = Error (ErrUnmountRetries last).
Proof. induction 1; eauto. Qed.

End LoopRun_facts.

(** ** Unmounting *)

Section Unmount_facts.

Variables (os : Fate) (gt : GoTree).

Lemma events_since_app (w w' : World) (evs : list Event) :
  trace w' = trace w ++ evs -> events_since w w' = evs.
Proof. intros H. unfold events_since. rewrite H. apply drop_app_length. Qed.

Lemma unmountWithOptions_not_mounted (mountPoint : string) (force : bool)
    (w : World) :
  fst (isMounted mountPoint w) = false ->
  unmountWithOptions os gt mountPoint force w = (Error ErrNotMounted, w).
Proof.
  intros Hnm. unfold unmountWithOptions.
  cbv beta iota zeta delta [isMounted gets fst] in Hnm.
  unfold bind at 1. unfold isMounted, gets. rewrite Hnm. reflexivity.
Qed.

Lemma unmountWithOptions_run (mountPoint : string) (force : bool) (w : World) :
  fst (isMounted mountPoint w) = true ->
  exists evs res w',
    unmountWithOptions os gt mountPoint force w = (res, w') /\
    trace w' = trace w ++ (SysSync, None) :: evs /\
    LoopRun force mountPoint (mountFile gt mountPoint) (maxRetries_of force)
      (Z.to_nat (maxRetries_of force)) 0 None evs res /\
    match res with
    | Error _ => mounts w' = mounts w
    | Ok _ => mounts w' = mounts w \/
              mounts w' = delete (filepath.Base mountPoint) (mounts w)
    end.
Proof.
  intros Hm. unfold unmountWithOptions.
  cbv beta iota zeta delta [isMounted gets fst] in Hm.
  unfold bind at 1. unfold isMounted, gets. rewrite Hm.
  cbv beta iota zeta delta [negb bind gets syscall_Sync emit].
  destruct (unmount_loop_run os gt force mountPoint
              (default mountPoint (filepath.Abs (cwd w) mountPoint))
              (maxRetries_of force) (Z.to_nat (maxRetries_of force)) 0 None
              (record_event (SysSync, None) w))
    as (evs & res & w' & Hrun & Htr & Hlr & Hmo).
  exists evs, res, w'. split; [exact Hrun|]. split; [|split].
  - rewrite Htr. simpl_world. rewrite <- app_assoc. reflexivity.
  - exact Hlr.
  - exact Hmo.
Qed.

Lemma maxRetries_of_invariant (force : bool) :
  maxRetries_of force = 0 + Z.of_nat (Z.to_nat (maxRetries_of force)).
Proof. destruct force; reflexivity. Qed.

End Unmount_facts.

Lemma backoff_wait_before (j : nat) :
  backoff (0 + Z.of_nat j) = wait_before (S j).
Proof.
  unfold backoff, wait_before. destruct j as [|j]; [reflexivity|].
  replace (0 <? 0 + Z.of_nat (S j)) with true by (symmetry; apply Z.ltb_lt; lia).
  replace (100 * (0 + Z.of_nat (S j) + 1) * Millisecond)
    with (Z.of_nat (S (S j)) * (100 * Millisecond))
    by (unfold Millisecond; lia).
  reflexivity.
Qed.

(** C7: an unmount of a mounted point adds to the trace one flush and
    then at most 3 attempts without force, at most 5 under force; the
    attempt number [k] (counting from 1) consists of its wait, which for
    [k >= 2] is a sleep of [k * 100] milliseconds followed by a flush, of
    the process kills (none without force, none in the first attempt) and
    of one plain unmount call; no plain unmount call follows the
    attempts. *)
Theorem unmount_retry_schedule (os : Fate) (gt : GoTree) (w : World)
    (mountPoint : string) (force : bool) :
  fst (isMounted mountPoint w) = true ->
  exists attempts tail,
    events_since w (snd (unmountWithOptions os gt mountPoint force w))
    = (SysSync, None) :: concat attempts ++ tail /\
    (1 <= length attempts)%nat /\
    (length attempts <= if force then 5 else 3)%nat /\
    (forall j seg, attempts !! j = Some seg ->
       exists kills r,
         seg = wait_before (S j) ++ kills ++ [(SysUnmount mountPoint 0, r)] /\
         Forall (fun e => is_exec_or_sleep e = true) kills /\
         (force = false \/ j = O -> kills = [])) /\
    Forall (fun e => is_attempt mountPoint e = false) tail.
Proof.
  intros Hm.
  destruct (unmountWithOptions_run os gt mountPoint force w Hm)
    as (evs & res & w' & Hrun & Htr & Hlr & _).
  rewrite Hrun. cbn [snd].
  destruct (LoopRun_schedule _ _ _ _ _ _ _ _ _ Hlr (maxRetries_of_invariant force))
    as (attempts & tail & Hevs & Hlen & Hpos & Hseg & Htail).
  exists attempts, tail.
  split; [|split; [|split; [|split]]].
  - rewrite (events_since_app w w' _ Htr). rewrite Hevs. reflexivity.
  - apply Hpos. destruct force; simpl; lia.
  - destruct force; exact Hlen.
  - intros j seg Hj. destruct (Hseg j seg Hj) as (kills & r & Hs & Hall & Hnone).
    exists kills, r. rewrite <- backoff_wait_before.
    split; [exact Hs|]. split; [exact Hall|].
    intros [Hf|Hj0]; apply Hnone.
    + rewrite Hf. reflexivity.
    + subst j. apply andb_false_r.
  - exact Htail.
Qed.

Example Unmount_busy_trace :
  events_since w_mounted (snd (Unmount fate_busy gt0 "/mnt/dev" w_mounted))
  = [(SysSync, None);
     (SysUnmount "/mnt/dev" 0, Some EBUSY);
     (Sleep (200 * Millisecond), None); (SysSync, None);
     (SysUnmount "/mnt/dev" 0, Some EBUSY);
     (Sleep (300 * Millisecond), None); (SysSync, None);
     (SysUnmount "/mnt/dev" 0, Some EBUSY);
     (SysUnmount "/mnt/dev" MNT_DETACH, Some EBUSY)] /\
  fst (Unmount fate_busy gt0 "/mnt/dev" w_mounted)
  = Error (ErrUnmountRetries (Some EBUSY)).
Proof. split; vm_compute; reflexivity. Qed.

Lemma unmount_retry_schedule_witness :
  exists attempts tail,
    events_since w_mounted
      (snd (unmountWithOptions fate_busy gt0 "/mnt/dev" true w_mounted))
    = (SysSync, None) :: concat attempts ++ tail /\
    (1 <= length attempts)%nat /\
    (length attempts <= 5)%nat /\
    (forall j seg, attempts !! j = Some seg ->
       exists kills r,
         seg = wait_before (S j) ++ kills ++ [(SysUnmount "/mnt/dev" 0, r)] /\
         Forall (fun e => is_exec_or_sleep e = true) kills /\
         (true = false \/ j = O -> kills = [])) /\
    Forall (fun e => is_attempt "/mnt/dev" e = false) tail.
Proof.
  apply (unmount_retry_schedule fate_busy gt0 w_mounted "/mnt/dev" true).
  vm_compute. reflexivity.
Defined.

(** ** Killing processes *)

Section Kill_facts.

Variables (force : bool) (mp mf : string) (maxRetries : Z).

Lemma backoff_no_exec (i : Z) : Forall (fun e => is_exec e = false) (backoff i).
Proof.
  eapply Forall_impl; [apply backoff_quiet|]. intros e [_ H]. exact H.
Qed.

Lemma LoopRun_no_exec (n : nat) (i : Z) (lastErr : option Z)
    (evs : list Event) (res : result unit) :
  LoopRun false mp mf maxRetries n i lastErr evs res ->
  Forall (fun e => is_exec e = false) evs.
Proof.
  induction 1 as
    [ i lastErr
    | n i lastErr kills rm [_ Hk]
    | n i lastErr kills e evs res [_ Hk] Hnl Hrun IH
    | n i lastErr kills e rm [_ Hk] Hl
    | n i lastErr kills e e' evs res [_ Hk] Hl Hrun IH ];
    try rewrite (Hk eq_refl); try constructor;
    repeat (apply Forall_app; split); try apply backoff_no_exec;
    repeat constructor; assumption.
Qed.

(** From index 0, a run starts with its first plain unmount. *)
Lemma LoopRun_first (n : nat) (lastErr : option Z) (evs : list Event)
    (res : result unit) :
  LoopRun force mp mf maxRetries n 0 lastErr evs res ->
  evs = [] \/
  (exists rm, evs = [(SysUnmount mp 0, None); (Remove mf, rm)]) \/
  (exists err rest, evs = (SysUnmount mp 0, Some err) :: rest).
Proof.
  intros H. inversion H as
    [ i le
    | n' i le kills rm [_ Hk]
    | n' i le kills e evs' res' [_ Hk] Hnl Hrun
    | n' i le kills e rm [_ Hk] Hl
    | n' i le kills e e' evs' res' [_ Hk] Hl Hrun ]; subst;
    try rewrite (Hk (andb_false_r force)); simpl; eauto.
Qed.

End Kill_facts.

(** C8: an unmount without force runs no program at all ([fuser -k],
    [lsof] and [kill] are the only way processes are terminated),
    whatever the unmount calls answer; under force, every program run is
    preceded, within the same invocation, by a plain unmount that
    failed: killing starts with the second attempt. *)
Theorem kill_only_under_force_after_failure (os : Fate) (gt : GoTree)
    (w : World) (mountPoint : string) (force : bool) :
  let evs :=
    events_since w (snd (unmountWithOptions os gt mountPoint force w)) in
  (force = false -> Forall (fun e => is_exec e = false) evs) /\
  (forall pre e post, evs = pre ++ e :: post -> is_exec e = true ->
     force = true /\
     exists err, (SysUnmount mountPoint 0, Some err) ∈ pre).
Proof.
  cbv zeta.
  destruct (fst (isMounted mountPoint w)) eqn:Hm.
  - destruct (unmountWithOptions_run os gt mountPoint force w Hm)
      as (evs & res & w' & Hrun & Htr & Hlr & _).
    rewrite Hrun. cbn [snd]. rewrite (events_since_app w w' _ Htr).
    assert (Hnoexec : force = false ->
                      Forall (fun e => is_exec e = false) ((SysSync, None) :: evs)).
    { intros ->. constructor; [reflexivity|].
      eapply LoopRun_no_exec. exact Hlr. }
    split; [exact Hnoexec|].
    intros pre e post Hsplit He.
    destruct force.
    + split; [reflexivity|].
      destruct pre as [|a pre]; simpl in Hsplit.
      { injection Hsplit as <- _. discriminate. }
      injection Hsplit as <- Hevs.
      destruct (LoopRun_first _ _ _ _ _ _ _ _ Hlr)
        as [Hnil | [(rm & Hok) | (err & rest & Hfail)]].
      * rewrite Hnil in Hevs. destruct pre; discriminate.
      * rewrite Hok in Hevs.
        destruct pre as [|a [|b [|c pre]]]; simpl in Hevs;
          try (injection Hevs as <-; discriminate);
          try (injection Hevs as _ <-; discriminate).
      * rewrite Hfail in Hevs.
        destruct pre as [|a pre]; simpl in Hevs.
        -- injection Hevs as <-. discriminate.
        -- injection Hevs as <- _. exists err. right. left.
    + exfalso. specialize (Hnoexec eq_refl).
      rewrite Hsplit in Hnoexec. apply Forall_app in Hnoexec.
      destruct Hnoexec as [_ Hn]. inversion Hn; congruence.
  - rewrite (unmountWithOptions_not_mounted os gt mountPoint force w Hm).
    cbn [snd]. unfold events_since. rewrite drop_all.
    split; [constructor|].
    intros pre e post Hsplit. destruct pre; discriminate.
Qed.

Lemma kill_only_under_force_after_failure_witness :
  Forall (fun e => is_exec e = false)
    (events_since w_mounted
       (snd (unmountWithOptions fate_busy gt0 "/mnt/dev" false w_mounted))).
Proof.
  apply (kill_only_under_force_after_failure fate_busy gt0 w_mounted
           "/mnt/dev" false).
  reflexivity.
Defined.

(** Under force, on a busy mount, the first program runs after the
    first plain unmount has failed. *)
Example UnmountForce_busy_first_events :
  take 6 (events_since w_mounted
            (snd (UnmountForce fate_busy gt0 "/mnt/dev" w_mounted)))
  = [(SysSync, None);
     (SysUnmount "/mnt/dev" 0, Some EBUSY);
     (Sleep (200 * Millisecond), None); (SysSync, None);
     (Exec ["fuser"; "-km"; "/mnt/dev"], None);
     (Exec ["lsof"; "-t"; "+D"; "/mnt/dev"], None)].
Proof. vm_compute. reflexivity. Qed.

(** ** The session record across an unmount *)

Lemma LoopRun_error_some (force : bool) (mp mf : string) (maxRetries : Z)
    (n : nat) (i : Z) (lastErr : option Z) (evs : list Event)
    (res : result unit) :
  LoopRun force mp mf maxRetries n i lastErr evs res ->
  forall err, res = Error err ->
    ((0 < n)%nat \/ is_Some lastErr) ->
    is_Some (last_attempt_error mp lastErr evs).
Proof.
  induction 1 as
    [ i lastErr
    | n i lastErr kills rm Hk
    | n i lastErr kills e evs res Hk Hnl Hrun IH
    | n i lastErr kills e rm Hk Hl
    | n i lastErr kills e e' evs res Hk Hl Hrun IH ]; intros err Herr Hsome;
    try discriminate.
  - destruct Hsome as [Hn|Hs]; [lia|exact Hs].
  - rewrite !last_attempt_error_app.
    rewrite (last_attempt_error_quiet _ _ _ (backoff_not_unmount i)).
    rewrite (last_attempt_error_quiet _ _ _ (kills_not_unmount _ i kills Hk)).
    unfold last_attempt_error at 1. cbn [fold_left].
    rewrite is_attempt_plain. apply (IH err Herr). right. eauto.
  - rewrite !last_attempt_error_app.
    rewrite (last_attempt_error_quiet _ _ _ (backoff_not_unmount i)).
    rewrite (last_attempt_error_quiet _ _ _ (kills_not_unmount _ i kills Hk)).
    unfold last_attempt_error at 1. cbn [fold_left].
    rewrite is_attempt_plain, is_attempt_detach. apply (IH err Herr).
    right. eauto.
Qed.

(** C9: whenever [unmountWithOptions] fails, the mount-session records
    are what they were; when the mount point is mounted and every unmount
    call of the invocation fails, the detaching one included, the result
    is [UnmountFailed] wrapping the error of the last plain unmount call
    (the loop's [lastErr]); and the records change only in a run that
    returns success and in which an unmount call succeeded, and then
    only by losing the record of this mount point. *)
Theorem unmount_failure_keeps_session (os : Fate) (gt : GoTree) (w : World)
    (mountPoint : string) (force : bool) :
  let out := unmountWithOptions os gt mountPoint force w in
  let evs := events_since w (snd out) in
  (forall err, fst out = Error err -> mounts (snd out) = mounts w) /\
  (fst (isMounted mountPoint w) = true ->
   Forall (fun ev => is_unmount ev = true -> snd ev <> None) evs ->
     exists e,
       last_attempt_error mountPoint None evs = Some e /\
       fst out = Error (ErrUnmountRetries (Some e)) /\
       kind_of (ErrUnmountRetries (Some e)) = Kind.UnmountFailed /\
       mounts (snd out) = mounts w) /\
  (mounts (snd out) <> mounts w ->
     fst out = Ok tt /\
     mounts (snd out) = delete (filepath.Base mountPoint) (mounts w) /\
     exists flags, (SysUnmount mountPoint flags, None) ∈ evs).
Proof.
  cbv zeta.
  destruct (fst (isMounted mountPoint w)) eqn:Hm.
  - destruct (unmountWithOptions_run os gt mountPoint force w Hm)
      as (evs & res & w' & Hrun & Htr & Hlr & Hmo).
    rewrite Hrun. cbn [fst snd]. rewrite (events_since_app w w' _ Htr).
    split; [|split].
    + intros err ->. exact Hmo.
    + intros _ Hall. inversion Hall as [|? ? _ Hall']; subst.
      destruct res as [[]|err].
      * exfalso.
        destruct (LoopRun_ok _ _ _ _ _ _ _ _ _ Hlr tt eq_refl) as (flags & Hin).
        rewrite Forall_forall in Hall'. apply (Hall' _ Hin); reflexivity.
      * destruct (LoopRun_error _ _ _ _ _ _ _ _ _ Hlr err eq_refl) as [He _].
        destruct (LoopRun_error_some _ _ _ _ _ _ _ _ _ Hlr err eq_refl)
          as [e Hsome].
        { left. destruct force; simpl; lia. }
        exists e. unfold last_attempt_error at 1. cbn [fold_left is_attempt].
        fold (last_attempt_error mountPoint None evs).
        rewrite He, Hsome. auto.
    + intros Hchanged. destruct res as [[]|err]; [|contradiction].
      destruct Hmo as [Hmo|Hmo]; [contradiction|].
      split; [reflexivity|]. split; [exact Hmo|].
      destruct (LoopRun_ok _ _ _ _ _ _ _ _ _ Hlr tt eq_refl) as (flags & Hin).
      exists flags. right. exact Hin.
  - rewrite (unmountWithOptions_not_mounted os gt mountPoint force w Hm).
    cbn [fst snd]. split; [|split].
    + reflexivity.
    + discriminate.
    + intros H. contradiction.
Qed.

Lemma unmount_failure_keeps_session_witness :
  exists e,
    last_attempt_error "/mnt/dev" None
      (events_since w_mounted
         (snd (unmountWithOptions fate_busy gt0 "/mnt/dev" true w_mounted)))
    = Some e /\
    fst (unmountWithOptions fate_busy gt0 "/mnt/dev" true w_mounted)
    = Error (ErrUnmountRetries (Some e)) /\
    kind_of (ErrUnmountRetries (Some e)) = Kind.UnmountFailed /\
    mounts (snd (unmountWithOptions fate_busy gt0 "/mnt/dev" true w_mounted))
    = mounts w_mounted.
Proof.
  apply (unmount_failure_keeps_session fate_busy gt0 w_mounted "/mnt/dev" true).
  - vm_compute. reflexivity.
  - apply (bool_decide_unpack _). vm_compute. exact I.
Defined.

(** The error of the detaching call is not the one reported. *)
Example Unmount_reports_plain_error :
  fst (Unmount fate_busy_then_invalid gt0 "/mnt/dev" w_mounted)
  = Error (ErrUnmountRetries (Some EBUSY)) /\
  last (events_since w_mounted
          (snd (Unmount fate_busy_then_invalid gt0 "/mnt/dev" w_mounted)))
  = Some (SysUnmount "/mnt/dev" MNT_DETACH, Some EINVAL).
Proof. split; vm_compute; reflexivity. Qed.

(** ** The session record across a mount *)


(** C2 (the code at the failing input): when the overlay mount fails
    and the bind-mount fallback succeeds, [Mount] returns success, the
    mount point is in the live mount table, and no mount-session record
    has been written: the deletion guard then takes the mounted ref for
    unmounted. *)
Theorem Mount_bind_fallback_writes_no_session :
  let out := Mount fate_no_overlay gt0 2 "dev" "/mnt/dev" w_tree in
  fst out = Some (Ok tt) /\
  mtab (snd out)
  = [mkMountEntry "/var/lib/gotree/layers/layer_1500" "/mnt/dev" "" ""] /\
  mounts (snd out) !! filepath.Base "/mnt/dev" = None /\
  mounts (snd out) = ∅ /\
  fst (IsMountedRef "dev" (snd out)) = Ok false.
Proof. cbv zeta. repeat split; vm_compute; reflexivity. Qed.

(** The sibling path: after a successful overlay mount the record is
    there. *)
Example Mount_overlay_writes_session :
  fst (Mount fate_ok gt0 2 "dev" "/mnt/dev" w_tree) = Some (Ok tt) /\
  mounts (snd (Mount fate_ok gt0 2 "dev" "/mnt/dev" w_tree))
    !! filepath.Base "/mnt/dev"
  = Some (session_info "dev" "/mnt/dev").
Proof. split; vm_compute; reflexivity. Qed.

(** ** The mounted test *)

(** C10: [isMounted] answers whether the absolute path of the mount
    point occurs as a substring of the text of the mount table, and not
    whether it is the target of an entry; so there is a mount point
    that is the target of no entry, whose absolute path is a substring
    of the target of a mounted entry, and on which [Mount] fails with
    [AlreadyMounted]. *)
Theorem isMounted_substring_of_mount_table :
  (forall (w : World) (mountPoint : string),
     fst (isMounted mountPoint w)
     = procfs w &&
       strings.Contains (proc_mounts (mtab w))
         (default "" (filepath.Abs (cwd w) mountPoint))) /\
  (exists (w : World) (mountPoint absPath : string),
     filepath.Abs (cwd w) mountPoint = Some absPath /\
     (forall e, e ∈ mtab w -> me_target e <> absPath) /\
     (exists e, e ∈ mtab w /\ strings.Contains (me_target e) absPath = true) /\
     fst (isMounted mountPoint w) = true /\
     fst (Mount fate_ok gt0 2 "base" mountPoint w)
     = Some (Error ErrMountPointInUse) /\
     kind_of ErrMountPointInUse = Kind.AlreadyMounted).
Proof.
  split.
  - intros w mountPoint. unfold isMounted, gets. simpl.
    destruct (procfs w); reflexivity.
  - exists w_mounted, "/mnt/de", "/mnt/de".
    split; [reflexivity|]. split; [|split; [|split; [|split]]].
    + intros e He. destruct w_mounted_session as [_ Hmtab].
      rewrite Hmtab in He. apply list_elem_of_singleton in He. subst e.
      discriminate.
    + destruct w_mounted_session as [_ Hmtab]. rewrite Hmtab.
      eexists. split; [apply list_elem_of_singleton; reflexivity|].
      vm_compute. reflexivity.
    + vm_compute. reflexivity.
    + vm_compute. reflexivity.
    + reflexivity.
Qed.

(** * Further properties of the code *)

(** ** Creation: errors and what is left behind *)

(** X1: A name that is empty or holds a forbidden character is refused by
    both creations before anything is done: the error is of kind
    [InvalidName], the world is as it was, no call has been made. *)
Theorem create_invalid_name_no_effect (os : Fate) (gt : GoTree) (w : World)
    (name parent : string) :
  name = "" \/ strings.ContainsAny name forbidden_chars = true ->
  exists e,
    kind_of e = Kind.InvalidName /\
    CreateEmptyRef os gt name w = (Error e, w) /\
    CreateRefFromParent os gt name parent w = (Error e, w).
Proof.
  intros Hbad. unfold CreateEmptyRef, CreateRefFromParent, validateRefName.
  destruct (String.eqb name "") eqn:He.
  - exists ErrEmptyName. repeat split.
  - apply String.eqb_neq in He. destruct Hbad as [Hbad|Hbad]; [contradiction|].
    rewrite Hbad. exists ErrInvalidChars. repeat split.
Qed.

Lemma create_invalid_name_no_effect_witness :
  exists e,
    kind_of e = Kind.InvalidName /\
    CreateEmptyRef fate_ok gt0 "a/b" w_base = (Error e, w_base) /\
    CreateRefFromParent fate_ok gt0 "a/b" "base" w_base = (Error e, w_base).
Proof.
  apply (create_invalid_name_no_effect fate_ok gt0 w_base "a/b" "base").
  right. reflexivity.
Defined.

(** [CreateRefFromParent] under a valid name whose parent is not in the
    store fails with [ParentNotFound] before anything is done: no layer
    directory is created, no call is made. *)
Theorem create_child_missing_parent (os : Fate) (gt : GoTree) (w : World)
    (name parent : string) :
  validateRefName name = Ok tt ->
  refs w !! parent = None ->
  exists e,
    kind_of e = Kind.ParentNotFound /\
    CreateRefFromParent os gt name parent w = (Error e, w).
Proof.
  intros Hv Hp.
  exists (ErrParentNotFound (ErrPathError (refPath gt parent) ENOENT)).
  split; [reflexivity|].
  unfold CreateRefFromParent. rewrite Hv. run_M. rewrite Hp. reflexivity.
Qed.

Lemma create_child_missing_parent_witness :
  exists e,
    kind_of e = Kind.ParentNotFound /\
    CreateRefFromParent fate_ok gt0 "dev" "ghost" w_base = (Error e, w_base).
Proof.
  apply (create_child_missing_parent fate_ok gt0 w_base "dev" "ghost");
    vm_compute; reflexivity.
Defined.




(** The layer id is the clock reading in decimal: two creations get the
    same layer id, and so the same layer directory, exactly when they
    read the same clock value. *)
Theorem layer_id_collision_iff_same_clock (w1 w2 : World) :
  fst (generateLayerID w1) = fst (generateLayerID w2) <-> clock w1 = clock w2.
Proof.
  unfold generateLayerID. run_M. split.
  - intros H. apply String.app_inj in H. apply (inj pretty) in H. exact H.
  - intros ->. reflexivity.
Qed.

(** ** Metadata and commit *)

(** Every record is stored under its own name. *)
Definition names_consistent (st : gmap string Ref) : Prop :=
  forall k r, st !! k = Some r -> Name r = k.

Lemma is_nil_insert (m : gmap string string) (k v : string) :
  is_nil (<[k := v]> m) = false.
Proof.
  unfold is_nil. apply bool_decide_eq_false. apply insert_non_empty.
Qed.

Lemma GetMetadata_found (gt : GoTree) (w : World) (refName key : string)
    (r : Ref) :
  refs w !! refName = Some r ->
  fst (GetMetadata gt refName key w)
  = match Metadata r !! key with
    | Some value => XOk value
    | None => XError (ErrMetadataKeyNotFound key)
    end.
Proof.
  intros Hr. unfold GetMetadata. run_M. rewrite Hr.
  unfold is_nil. destruct (bool_decide (Metadata r = ∅)) eqn:Hnil.
  - apply bool_decide_eq_true in Hnil. rewrite Hnil, lookup_empty. reflexivity.
  - destruct (Metadata r !! key); reflexivity.
Qed.





(** X5: After [DeleteMetadata] of [key], [GetMetadata] fails on [key] with
    "metadata key not found" and returns what it returned before for
    every other key; deleting a key that is not there succeeds and
    leaves the ref store as it was. *)
Theorem metadata_delete_then_get (os : Fate) (gt : GoTree) (w : World)
    (refName key : string) (r : Ref) :
  refs w !! refName = Some r ->
  Name r = refName ->
  errno_of os (trace w) (WriteFile (refPath gt refName)) = None ->
  let w' := snd (DeleteMetadata os gt refName key w) in
  fst (DeleteMetadata os gt refName key w) = Ok tt /\
  fst (GetMetadata gt refName key w') = XError (ErrMetadataKeyNotFound key) /\
  (forall key', key' <> key ->
     fst (GetMetadata gt refName key' w') = fst (GetMetadata gt refName key' w)) /\
  (Metadata r !! key = None -> refs w' = refs w).
Proof.
  intros Hr Hname Hw. cbv zeta.
  destruct (is_nil (Metadata r)) eqn:Hnil.
  - assert (Hrun : DeleteMetadata os gt refName key w = (Ok tt, w)).
    { unfold DeleteMetadata. run_M. rewrite Hr, Hnil. reflexivity. }
    rewrite Hrun. cbn [fst snd].
    apply bool_decide_eq_true in Hnil.
    split; [reflexivity|]. split; [|split].
    + erewrite GetMetadata_found by exact Hr.
      rewrite Hnil, lookup_empty. reflexivity.
    + reflexivity.
    + reflexivity.
  - assert (Hrun : DeleteMetadata os gt refName key w
                   = (Ok tt,
                      set_refs (insert refName
                                  (mkRef (Name r) (Parent r) (LayerID r)
                                     (CreatedAt r) (delete key (Metadata r))))
                        (record_event (WriteFile (refPath gt refName), None) w))).
    { unfold DeleteMetadata. run_M. rewrite Hr, Hnil. simpl_world.
      rewrite Hname, Hw. reflexivity. }
    rewrite Hrun. cbn [fst snd].
    split; [reflexivity|]. split; [|split].
    + erewrite GetMetadata_found by (simpl_world; apply lookup_insert_eq).
      simpl_world. rewrite lookup_delete_eq. reflexivity.
    + intros key' Hne.
      erewrite GetMetadata_found by (simpl_world; apply lookup_insert_eq).
      erewrite (GetMetadata_found gt w) by exact Hr.
      simpl_world. rewrite lookup_delete_ne by congruence. reflexivity.
    + intros Habs. simpl_world. rewrite delete_id by exact Habs.
      apply insert_id. rewrite Hr. destruct r; simpl in *. reflexivity.
Qed.

Lemma metadata_delete_then_get_witness :
  fst (DeleteMetadata fate_ok gt0 "base" "os" w_base) = Ok tt /\
  fst (GetMetadata gt0 "base" "os"
         (snd (DeleteMetadata fate_ok gt0 "base" "os" w_base)))
  = XError (ErrMetadataKeyNotFound "os") /\
  (forall key', key' <> "os" ->
     fst (GetMetadata gt0 "base" key'
            (snd (DeleteMetadata fate_ok gt0 "base" "os" w_base)))
     = fst (GetMetadata gt0 "base" key' w_base)) /\
  (Metadata base_ref !! "os" = None ->
     refs (snd (DeleteMetadata fate_ok gt0 "base" "os" w_base)) = refs w_base).
Proof.
  apply (metadata_delete_then_get fate_ok gt0 w_base "base" "os" base_ref);
    vm_compute; reflexivity.
Defined.

(** ** What an operation leaves alone *)

Section Frame.

(** A part [f] of the world that calls, the clock and the mount table do
    not touch. *)
Context {B : Type} (f : World -> B).
Hypothesis f_event : forall e w, f (record_event e w) = f w.
Hypothesis f_clock : forall g w, f (set_clock g w) = f w.
Hypothesis f_mtab : forall g w, f (set_mtab g w) = f w.
Hypothesis f_mounts : forall g w, f (set_mounts g w) = f w.
Hypothesis f_work : forall g w, f (set_work g w) = f w.

Definition keeps {A} (m : M A) : Prop := forall w, f (snd (m w)) = f w.

Lemma keeps_ret {A} (a : A) : keeps (ret a).
Proof. intros w. reflexivity. Qed.

Lemma keeps_gets {A} (g : World -> A) : keeps (gets g).
Proof. intros w. reflexivity. Qed.

Lemma keeps_bind {A C} (m : M A) (k : A -> M C) :
  keeps m -> (forall a, keeps (k a)) -> keeps (bind m k).
Proof.
  intros Hm Hk w. unfold bind. specialize (Hm w).
  destruct (m w) as [a w1]. simpl in Hm. rewrite (Hk a w1). exact Hm.
Qed.

Lemma keeps_syscall (os : Fate) (c : Call) : keeps (syscall os c).
Proof. intros w. apply f_event. Qed.

Lemma keeps_emit (c : Call) : keeps (emit c).
Proof. intros w. apply f_event. Qed.

Lemma keeps_syscall_then (os : Fate) (c : Call) (effect : World -> World) :
  (forall w, f (effect w) = f w) -> keeps (syscall_then os c effect).
Proof.
  intros He w. unfold syscall_then, syscall, bind, modify, ret.
  destruct (errno_of os (trace w) c); simpl; rewrite ?He; apply f_event.
Qed.

Lemma keeps_time_Sleep (d : Z) : keeps (time_Sleep d).
Proof. intros w. unfold time_Sleep, emit, bind, modify. simpl.
       rewrite f_clock. apply f_event. Qed.

Lemma keeps_for_each {A} (l : list A) (body : A -> M unit) :
  (forall a, keeps (body a)) -> keeps (for_each l body).
Proof.
  intros Hb. induction l as [|a l IH]; [apply keeps_ret|].
  simpl. apply keeps_bind; [apply Hb|]. intros _. exact IH.
Qed.

Lemma keeps_exec_Run (os : Fate) (argv : list string) :
  keeps (exec_Run os argv).
Proof.
  unfold exec_Run. apply keeps_bind; [apply keeps_syscall|].
  intros _. apply keeps_ret.
Qed.

Lemma keeps_killProcessesUsingMount (os : Fate) (mountPoint : string) :
  keeps (killProcessesUsingMount os mountPoint).
Proof.
  unfold killProcessesUsingMount, exec_Output.
  apply keeps_bind; [apply keeps_exec_Run|]. intros _.
  apply keeps_bind.
  { apply keeps_bind; [apply keeps_gets|]. intros out.
    apply keeps_bind; [apply keeps_syscall|]. intros err. apply keeps_ret. }
  intros [output [e|]]; [apply keeps_ret|].
  destruct (String.eqb output ""); [apply keeps_ret|].
  apply keeps_bind; [apply keeps_for_each; intros; apply keeps_exec_Run|].
  intros _. apply keeps_bind; [apply keeps_time_Sleep|].
  intros _. apply keeps_for_each. intros. apply keeps_exec_Run.
Qed.

Lemma keeps_syscall_Unmount (os : Fate) (target : string) (flags : Z) :
  keeps (syscall_Unmount os target flags).
Proof.
  unfold syscall_Unmount. apply keeps_bind; [apply keeps_gets|].
  intros tgt. apply keeps_syscall_then. intros w. apply f_mtab.
Qed.

Lemma keeps_syscall_Mount (os : Fate) (source target fstype : string)
    (flags : Z) (data : string) :
  keeps (syscall_Mount os source target fstype flags data).
Proof.
  unfold syscall_Mount. apply keeps_bind; [apply keeps_gets|].
  intros tgt. apply keeps_syscall_then. intros w. apply f_mtab.
Qed.

Lemma keeps_remove_mountFile (os : Fate) (gt : GoTree) (mountPoint : string) :
  keeps (remove_mountFile os gt mountPoint).
Proof.
  unfold remove_mountFile. apply keeps_bind; [apply keeps_gets|].
  intros [|].
  - apply keeps_bind; [|intros _; apply keeps_ret].
    apply keeps_syscall_then. intros w. apply f_mounts.
  - intros w. apply f_event.
Qed.

Lemma keeps_unmount_loop (os : Fate) (gt : GoTree) (force : bool)
    (mountPoint absPath : string) (maxRetries : Z) (n : nat) :
  forall i lastErr,
    keeps (unmount_loop os gt force mountPoint absPath maxRetries n i lastErr).
Proof.
  induction n as [|n IH]; intros i lastErr; [apply keeps_ret|].
  cbn [unmount_loop].
  apply keeps_bind.
  { destruct (0 <? i); [|apply keeps_ret].
    apply keeps_bind; [apply keeps_time_Sleep|]. intros _. apply keeps_emit. }
  intros _. apply keeps_bind.
  { destruct (force && (0 <? i)); [|apply keeps_ret].
    apply keeps_bind; [apply keeps_killProcessesUsingMount|].
    intros _. apply keeps_time_Sleep. }
  intros _. apply keeps_bind; [apply keeps_syscall_Unmount|].
  intros [e|].
  - destruct (i =? maxRetries - 1); [|apply IH].
    apply keeps_bind; [apply keeps_syscall_Unmount|].
    intros [e'|]; [apply IH|].
    apply keeps_bind; [apply keeps_remove_mountFile|].
    intros _. apply keeps_ret.
  - apply keeps_bind; [apply keeps_remove_mountFile|].
    intros _. apply keeps_ret.
Qed.

Lemma keeps_unmountWithOptions (os : Fate) (gt : GoTree) (mountPoint : string)
    (force : bool) :
  keeps (unmountWithOptions os gt mountPoint force).
Proof.
  unfold unmountWithOptions, isMounted.
  apply keeps_bind; [apply keeps_gets|].
  intros mounted. destruct (negb mounted); [apply keeps_ret|].
  apply keeps_bind; [apply keeps_gets|]. intros absPath.
  apply keeps_bind; [apply keeps_emit|]. intros _.
  apply keeps_unmount_loop.
Qed.

Lemma keeps_buildLowerDirs_loop (gt : GoTree) (fuel : nat) :
  forall dirs current, keeps (buildLowerDirs_loop gt fuel dirs current).
Proof.
  induction fuel as [|fuel IH]; intros dirs current; [apply keeps_ret|].
  simpl. destruct (String.eqb (Parent current) ""); [apply keeps_ret|].
  apply keeps_bind; [apply keeps_gets|].
  intros [parent|e]; [apply IH|apply keeps_ret].
Qed.

Lemma keeps_Mount (os : Fate) (gt : GoTree) (fuel : nat)
    (refName mountPoint : string) :
  keeps (Mount os gt fuel refName mountPoint).
Proof.
  unfold Mount, getRef, isMounted, buildLowerDirs.
  apply keeps_bind; [apply keeps_gets|].
  intros [ref|e]; [|apply keeps_ret].
  apply keeps_bind; [apply keeps_syscall|].
  intros [e|]; [apply keeps_ret|].
  apply keeps_bind; [apply keeps_gets|].
  intros [|]; [apply keeps_ret|].
  apply keeps_bind; [apply keeps_buildLowerDirs_loop|].
  intros [lowerDirs|]; [|apply keeps_ret].
  apply keeps_bind; [apply keeps_syscall_then; intros w; apply f_work|].
  intros [e|]; [apply keeps_ret|].
  apply keeps_bind; [apply keeps_syscall_Mount|].
  intros [e|].
  - apply keeps_bind; [apply keeps_syscall_Mount|].
    intros [e'|]; apply keeps_ret.
  - apply keeps_bind; [apply keeps_syscall_then; intros w; apply f_mounts|].
    intros [e'|]; apply keeps_ret.
Qed.

End Frame.

(** X6: [Mount], [Unmount] and [UnmountForce] change no ref record and
    create or remove no layer directory, whatever their outcome;
    unmounting leaves the work directories alone as well. *)
Theorem mount_unmount_keep_refs_and_layers (os : Fate) (gt : GoTree)
    (fuel : nat) (refName mountPoint : string) (force : bool) (w : World) :
  refs (snd (Mount os gt fuel refName mountPoint w)) = refs w /\
  layers (snd (Mount os gt fuel refName mountPoint w)) = layers w /\
  refs (snd (unmountWithOptions os gt mountPoint force w)) = refs w /\
  layers (snd (unmountWithOptions os gt mountPoint force w)) = layers w /\
  work (snd (unmountWithOptions os gt mountPoint force w)) = work w.
Proof.
  repeat split.
  - apply (keeps_Mount refs); reflexivity.
  - apply (keeps_Mount layers); reflexivity.
  - apply (keeps_unmountWithOptions refs); reflexivity.
  - apply (keeps_unmountWithOptions layers); reflexivity.
  - apply (keeps_unmountWithOptions work); reflexivity.
Qed.

(** ** What each command does to the ref store *)









(** The two halves of [DeleteRef]: the checks made without force, and
    the removal. *)
Definition delete_guard (name : string) (force : bool) : M (option Err) :=
  if negb force then
    r <- HasChildren name ;;
    match r with
    | Error e => ret (Some e)
    | Ok true => ret (Some (ErrHasChildren name))
    | Ok false =>
        r <- IsMountedRef name ;;
        match r with
        | Error e => ret (Some e)
        | Ok true => ret (Some (ErrIsMounted name))
        | Ok false => ret None
        end
    end
  else ret None.

Definition delete_removal (os : Fate) (gt : GoTree) (name : string) (ref : Ref)
  : M (result unit) :=
  err <- syscall_then os (Remove (refPath gt name)) (set_refs (delete name)) ;;
  match other_than_not_exist err with
  | Some e => ret (Error (ErrRemoveRefFile (ErrPathError (refPath gt name) e)))
  | None =>
      err <- syscall_then os (RemoveAll (layerPath gt (LayerID ref)))
               (set_layers (fun s => s ∖ {[LayerID ref]})) ;;
      match other_than_not_exist err with
      | Some e =>
          ret (Error (ErrRemoveLayerDir
                        (ErrPathError (layerPath gt (LayerID ref)) e)))
      | None =>
          syscall_then os (RemoveAll (workPath gt (LayerID ref)))
            (set_work (fun s => s ∖ {[LayerID ref]})) ;;;
          ret (Ok tt)
      end
  end.

Lemma DeleteRef_halves (os : Fate) (gt : GoTree) (name : string) (force : bool) :
  DeleteRef os gt name force
  = (r <- getRef gt name ;;
     match r with
     | Error e => ret (Error (ErrRefNotFound e))
     | Ok ref =>
         guard <- delete_guard name force ;;
         match guard with
         | Some e => ret (Error e)
         | None => delete_removal os gt name ref
         end
     end).
Proof. reflexivity. Qed.

Lemma IsMountedRef_false (w : World) (name : string) :
  ~ has_session (mounts w) name ->
  IsMountedRef name w = (Ok false, w).
Proof.
  intros Hno. unfold IsMountedRef. run_M.
  destruct (existsb _ _) eqn:He; [|reflexivity].
  exfalso. apply Hno. apply existsb_map_values in He.
  destruct He as (k & info & Hl & Hi). apply String.eqb_eq in Hi.
  exists k, info. auto.
Qed.

Lemma has_child_dec (st : gmap string Ref) (name : string) :
  has_child st name \/ ~ has_child st name.
Proof.
  destruct (existsb (fun r => String.eqb (Parent r) name)
              (map snd (map_to_list st))) eqn:He.
  - left. apply existsb_map_values in He.
    destruct He as (c & r & Hl & Hp). apply String.eqb_eq in Hp.
    exists c, r. auto.
  - right. apply no_child_by_scan. exact He.
Qed.

Lemma has_session_dec (ms : gmap string (gmap string string)) (name : string) :
  has_session ms name \/ ~ has_session ms name.
Proof.
  destruct (existsb (fun info => String.eqb (info_ref info) name)
              (map snd (map_to_list ms))) eqn:He.
  - left. apply existsb_map_values in He.
    destruct He as (k & info & Hl & Hi). apply String.eqb_eq in Hi.
    exists k, info. auto.
  - right. intros (k & info & Hl & Hi).
    assert (Ht : existsb (fun info => String.eqb (info_ref info) name)
                   (map snd (map_to_list ms)) = true).
    { apply existsb_map_values. exists k, info. split; [exact Hl|].
      apply String.eqb_eq. exact Hi. }
    congruence.
Qed.

(** The checks change nothing, pass under force, and without force pass
    exactly when no ref records the name as parent and no session
    references it. *)
Lemma delete_guard_run (name : string) (force : bool) (w : World) :
  exists g, delete_guard name force w = (g, w) /\
    (g = None <->
     force = true \/
     (~ has_child (refs w) name /\ ~ has_session (mounts w) name)).
Proof.
  unfold delete_guard. destruct force; cbn [negb].
  - exists None. split; [reflexivity|]. split; auto.
  - destruct (has_child_dec (refs w) name) as [Hc|Hc].
    + exists (Some (ErrHasChildren name)). unfold bind.
      rewrite (HasChildren_true w name Hc). split; [reflexivity|].
      split; [discriminate|]. intros [H|[H _]]; [discriminate|contradiction].
    + destruct (has_session_dec (mounts w) name) as [Hs|Hs].
      * exists (Some (ErrIsMounted name)). unfold bind.
        rewrite (HasChildren_false w name Hc).
        rewrite (IsMountedRef_true w name Hs). split; [reflexivity|].
        split; [discriminate|]. intros [H|[_ H]]; [discriminate|contradiction].
      * exists None. unfold bind.
        rewrite (HasChildren_false w name Hc).
        rewrite (IsMountedRef_false w name Hs). split; [reflexivity|].
        split; auto.
Qed.

(** The removal either stops at the ref file, or removes the record (if
    the file was there) and goes on to the layer directory. *)
Lemma delete_removal_refs (os : Fate) (gt : GoTree) (name : string) (ref : Ref)
    (w : World) :
  refs (snd (delete_removal os gt name ref w)) = refs w \/
  refs (snd (delete_removal os gt name ref w)) = delete name (refs w).
Proof.
  unfold delete_removal. run_M.
  case_fate; simpl_world.
  - destruct (other_than_not_exist (Some z)); [left; reflexivity|].
    case_fate; simpl_world.
    + destruct (other_than_not_exist (Some z0)); [left; reflexivity|].
      case_fate; left; reflexivity.
    + cbn [other_than_not_exist]. case_fate; left; reflexivity.
  - cbn [other_than_not_exist].
    case_fate; simpl_world.
    + destruct (other_than_not_exist (Some z)); [right; reflexivity|].
      case_fate; right; reflexivity.
    + cbn [other_than_not_exist]. case_fate; right; reflexivity.
Qed.

(** What [DeleteRef] does to the ref store: nothing, or the record is
    removed; and without force the record is removed only if no ref
    recorded it as parent and no session referenced it. *)
Lemma DeleteRef_refs (os : Fate) (gt : GoTree) (name : string) (force : bool)
    (w : World) :
  refs (snd (DeleteRef os gt name force w)) = refs w \/
  (refs (snd (DeleteRef os gt name force w)) = delete name (refs w) /\
   is_Some (refs w !! name) /\
   (force = false ->
      ~ has_child (refs w) name /\ ~ has_session (mounts w) name)).
Proof.
  rewrite DeleteRef_halves. unfold bind, getRef, gets.
  destruct (refs w !! name) as [r|] eqn:Hr; [|left; reflexivity].
  destruct (delete_guard_run name force w) as (g & Hg & Hiff).
  rewrite Hg. destruct g as [e|]; [left; reflexivity|].
  destruct (delete_removal_refs os gt name r w) as [H|H]; [left; exact H|].
  right. split; [exact H|]. split; [eauto|].
  intros ->. destruct Hiff as [Hiff _].
  destruct (Hiff eq_refl) as [Hf|Hok]; [discriminate|exact Hok].
Qed.

(** ** Invariants of the ref store *)

(** The store is a forest: no cycle, no dangling parent, every record
    under its own name. *)
Definition forest (st : gmap string Ref) : Prop :=
  acyclic st /\ parents_resolve st /\ names_consistent st.





Lemma tc_impl {A} (R R' : relation A) (x y : A) :
  (forall a b, R a b -> R' a b) -> tc R x y -> tc R' x y.
Proof.
  intros Himpl H. induction H as [x y H|x z y H _ IH].
  - apply tc_once, Himpl, H.
  - eapply tc_l; [apply Himpl, H|exact IH].
Qed.


Lemma parent_of_delete (st : gmap string Ref) (name x y : string) :
  parent_of (delete name st) x y -> parent_of st x y.
Proof.
  intros (rx & Hl & Hpx & Hy). apply lookup_delete_Some in Hl as [_ Hl].
  exists rx. auto.
Qed.


Section Commands.

Variables (os : Fate) (gt : GoTree) (fuel : nat).




End Commands.



(** A session of commands of normal operation on an empty repository. *)
Definition cmds_session : list (Z * Cmd) :=
  [(0, CmdCreate "base" None);
   (10, CmdCreate "dev" (Some "base"));
   (10, CmdMetadataSet "dev" "arch" "x86");
   (10, CmdMount "dev" "/mnt/dev");
   (10, CmdCommit "dev" "first");
   (10, CmdUnmount "/mnt/dev" false);
   (10, CmdMetadataDelete "dev" "arch");
   (10, CmdDelete "dev" false)].

Example cmds_session_result :
  refs (run_cmds fate_ok gt0 3 cmds_session w_empty)
  = {[ "base" := mkRef "base" "" "layer_1000" 1000 ∅ ]} /\
  layers (run_cmds fate_ok gt0 3 cmds_session w_empty) = {[ "layer_1000" ]} /\
  mounts (run_cmds fate_ok gt0 3 cmds_session w_empty) = ∅ /\
  mtab (run_cmds fate_ok gt0 3 cmds_session w_empty) = [].
Proof. repeat split; vm_compute; reflexivity. Qed.

Lemma forest_empty : forest (∅ : gmap string Ref).
Proof.
  split; [|split].
  - intros n Hn. apply tc_first_edge in Hn.
    destruct Hn as (p & r & Hl & _). rewrite lookup_empty in Hl. discriminate.
  - intros n r Hl. rewrite lookup_empty in Hl. discriminate.
  - intros n r Hl. rewrite lookup_empty in Hl. discriminate.
Qed.



(** ** Deletion: force and partial failure *)

(** X9: Deleting never closes a cycle, forced or not. *)
Theorem DeleteRef_keeps_acyclic (os : Fate) (gt : GoTree) (name : string)
    (force : bool) (w : World) :
  acyclic (refs w) -> acyclic (refs (snd (DeleteRef os gt name force w))).
Proof.
  intros Hac. destruct (DeleteRef_refs os gt name force w) as [->|[-> _]];
    [exact Hac|].
  intros x Hx. apply (Hac x). eapply tc_impl; [|exact Hx].
  intros a b. apply parent_of_delete.
Qed.

Lemma w_tree_acyclic : acyclic (refs w_tree).
Proof.
  apply (run_ops_fresh_forest fate_ok gt0 ops_tree w_empty).
  - apply forest_empty.
  - apply forest_empty.
  - apply (bool_decide_unpack _). vm_compute. exact I.
  - intros o _. apply lookup_empty.
Qed.

Lemma DeleteRef_keeps_acyclic_witness :
  acyclic (refs (snd (DeleteRef fate_ok gt0 "base" true w_tree))).
Proof.
  apply (DeleteRef_keeps_acyclic fate_ok gt0 "base" true w_tree).
  apply w_tree_acyclic.
Defined.

(** X10: With force, and when the ref file and the layer directory can be
    removed, [DeleteRef] succeeds whatever refs name the ref as parent
    and whatever sessions reference it: the record and the layer
    directory are gone, every other record is as it was (children keep
    the name of the parent that is gone), and the session records and
    the live mount table are as they were. *)
Theorem DeleteRef_force_ignores_guard (os : Fate) (gt : GoTree) (w : World)
    (name : string) (r : Ref) :
  refs w !! name = Some r ->
  errno_of os (trace w) (Remove (refPath gt name)) = None ->
  errno_of os (trace w ++ [(Remove (refPath gt name), None)])
    (RemoveAll (layerPath gt (LayerID r))) = None ->
  let out := DeleteRef os gt name true w in
  fst out = Ok tt /\
  refs (snd out) = delete name (refs w) /\
  layers (snd out) = layers w ∖ {[LayerID r]} /\
  mounts (snd out) = mounts w /\
  mtab (snd out) = mtab w.
Proof.
  intros Hr H1 H2. cbv zeta. unfold DeleteRef. run_M. rewrite Hr.
  cbv beta iota zeta delta [negb]. rewrite H1. simpl_world.
  cbn [other_than_not_exist]. simpl_world. rewrite H2. simpl_world.
  cbn [other_than_not_exist]. simpl_world. case_fate; repeat split.
Qed.

Lemma DeleteRef_force_ignores_guard_witness :
  fst (DeleteRef fate_ok gt0 "base" true w_mounted) = Ok tt /\
  refs (snd (DeleteRef fate_ok gt0 "base" true w_mounted))
  = delete "base" (refs w_mounted) /\
  layers (snd (DeleteRef fate_ok gt0 "base" true w_mounted))
  = layers w_mounted ∖ {["layer_1000"]} /\
  mounts (snd (DeleteRef fate_ok gt0 "base" true w_mounted)) = mounts w_mounted /\
  mtab (snd (DeleteRef fate_ok gt0 "base" true w_mounted)) = mtab w_mounted.
Proof.
  apply (DeleteRef_force_ignores_guard fate_ok gt0 w_mounted "base" root_ref).
  - vm_compute. reflexivity.
  - reflexivity.
  - reflexivity.
Defined.

(** A child whose parent is gone is composed as a root: the walk of
    [buildLowerDirs] stops at the parent that does not resolve and
    returns no lower directory, so the parent's layers are missing from
    the overlay without an error. *)
Theorem orphan_has_no_lower_dirs (os : Fate) (gt : GoTree) (w : World)
    (name child : string) (rc : Ref) (fuel : nat) :
  refs w !! child = Some rc ->
  Parent rc = name -> name <> "" -> child <> name ->
  refs (snd (DeleteRef os gt name true w)) = delete name (refs w) ->
  let w' := snd (DeleteRef os gt name true w) in
  refs w' !! child = Some rc /\
  buildLowerDirs gt (S fuel) rc w' = (Some [], w').
Proof.
  intros Hc Hp Hne Hcn Hdel. cbv zeta.
  generalize dependent (snd (DeleteRef os gt name true w)). intros w' Hdel.
  split.
  - rewrite Hdel. rewrite lookup_delete_ne by congruence. exact Hc.
  - unfold buildLowerDirs. cbn [buildLowerDirs_loop].
    rewrite Hp. destruct (String.eqb name "") eqn:He.
    { apply String.eqb_eq in He. contradiction. }
    run_M. rewrite Hdel, lookup_delete_eq. reflexivity.
Qed.

Lemma orphan_has_no_lower_dirs_witness :
  refs (snd (DeleteRef fate_ok gt0 "base" true w_tree)) !! "dev" = Some dev_ref /\
  buildLowerDirs gt0 1 dev_ref (snd (DeleteRef fate_ok gt0 "base" true w_tree))
  = (Some [], snd (DeleteRef fate_ok gt0 "base" true w_tree)).
Proof.
  apply (orphan_has_no_lower_dirs fate_ok gt0 w_tree "base" "dev" dev_ref 0).
  - vm_compute. reflexivity.
  - reflexivity.
  - discriminate.
  - discriminate.
  - vm_compute. reflexivity.
Defined.

(** X11: No rollback: when the ref file is removed and the layer directory
    cannot be (for another reason than being absent), [DeleteRef] fails
    with an I/O error, the record is gone all the same, and the layer
    and work directories are still there. *)
Theorem DeleteRef_layer_failure_no_rollback (os : Fate) (gt : GoTree)
    (w : World) (name : string) (force : bool) (r : Ref) (e : Z) :
  refs w !! name = Some r ->
  force = true \/ (~ has_child (refs w) name /\ ~ has_session (mounts w) name) ->
  errno_of os (trace w) (Remove (refPath gt name)) = None ->
  errno_of os (trace w ++ [(Remove (refPath gt name), None)])
    (RemoveAll (layerPath gt (LayerID r))) = Some e ->
  IsNotExist e = false ->
  let out := DeleteRef os gt name force w in
  fst out
  = Error (ErrRemoveLayerDir (ErrPathError (layerPath gt (LayerID r)) e)) /\
  refs (snd out) = delete name (refs w) /\
  layers (snd out) = layers w /\
  work (snd out) = work w.
Proof.
  intros Hr Hpass H1 H2 He. cbv zeta. rewrite DeleteRef_halves.
  unfold bind, getRef, gets. rewrite Hr.
  destruct (delete_guard_run name force w) as (g & Hg & Hiff).
  rewrite Hg. destruct Hiff as [_ Hiff]. rewrite (Hiff Hpass).
  unfold delete_removal. run_M. rewrite H1. simpl_world.
  cbn [other_than_not_exist]. simpl_world. rewrite H2. simpl_world.
  cbn [other_than_not_exist]. rewrite He. repeat split.
Qed.

(** An operating system on which layer directories cannot be removed. *)
Definition fate_layers_stuck : Fate :=
  mkFate (fun _ c => match c with
                     | RemoveAll _ => Some EBUSY
                     | _ => None
                     end)
         (fun _ _ => "").

Lemma DeleteRef_layer_failure_no_rollback_witness :
  fst (DeleteRef fate_layers_stuck gt0 "dev" false w_tree)
  = Error (ErrRemoveLayerDir
             (ErrPathError (layerPath gt0 (LayerID dev_ref)) EBUSY)) /\
  refs (snd (DeleteRef fate_layers_stuck gt0 "dev" false w_tree))
  = delete "dev" (refs w_tree) /\
  layers (snd (DeleteRef fate_layers_stuck gt0 "dev" false w_tree))
  = layers w_tree /\
  work (snd (DeleteRef fate_layers_stuck gt0 "dev" false w_tree)) = work w_tree.
Proof.
  apply (DeleteRef_layer_failure_no_rollback fate_layers_stuck gt0 w_tree "dev"
           false dev_ref EBUSY).
  - vm_compute. reflexivity.
  - right. split.
    + apply no_child_by_scan. vm_compute. reflexivity.
    + intros (k & info & Hl & _). vm_compute in Hl. discriminate.
  - reflexivity.
  - reflexivity.
  - reflexivity.
Defined.

(** ** The lower directories of any ref *)







(** X14: The walk of the [size] command returns on every store, whatever its
    parent links: within as many steps as the store has layer ids, plus
    two. *)
Theorem size_walk_returns_on_every_store (gt : GoTree) (w : World) (r : Ref)
    (fuel : nat) :
  (size (layer_ids (refs w)) + 1 < fuel)%nat ->
  exists measured, size_walk gt fuel ∅ [] r w = (Some measured, w).
Proof. intros Hfuel. apply size_walk_terminates. exact Hfuel. Qed.

Lemma size_walk_returns_on_every_store_witness :
  exists measured,
    size_walk gt0 3 ∅ [] self_parent_ref w_self_parent
    = (Some measured, w_self_parent).
Proof.
  apply (size_walk_returns_on_every_store gt0 w_self_parent self_parent_ref 3).
  vm_compute. lia.
Defined.




(** ** Substrings and the mount table *)


Lemma prefix_app_r (sub s1 s2 : string) :
  String.prefix sub s1 = true -> String.prefix sub (s1 +:+ s2) = true.
Proof.
  revert s1. induction sub as [|c sub IH]; intros s1 H.
  - destruct (s1 +:+ s2); reflexivity.
  - destruct s1 as [|d s1]; simpl in *; [discriminate|].
    destruct (ascii_dec c d); [apply IH; exact H|discriminate].
Qed.

Lemma Contains_nil (s : string) : strings.Contains s "" = true.
Proof. destruct s; reflexivity. Qed.

Lemma Contains_app_l (s1 s2 sub : string) :
  strings.Contains s1 sub = true -> strings.Contains (s1 +:+ s2) sub = true.
Proof.
  induction s1 as [|c s1 IH]; intros H.
  - simpl in H. unfold strings.HasPrefix in H. rewrite orb_false_r in H.
    destruct sub; [apply Contains_nil|discriminate].
  - cbn [strings.Contains] in H. apply orb_true_iff in H.
    change (String c s1 +:+ s2) with (String c (s1 +:+ s2)).
    cbn [strings.Contains]. apply orb_true_iff. destruct H as [H|H].
    + left. unfold strings.HasPrefix in *.
      apply (prefix_app_r sub (String c s1) s2 H).
    + right. apply IH, H.
Qed.





(** ** Mounting twice *)






(** [Mount] on a mount point that tests as mounted: refused before any
    directory of the repository or the mount table is touched. *)
Lemma Mount_on_mounted (os : Fate) (gt : GoTree) (fuel : nat)
    (refName mountPoint : string) (w : World) (ref : Ref) :
  fst (isMounted mountPoint w) = true ->
  refs w !! refName = Some ref ->
  errno_of os (trace w) (MkdirAll mountPoint) = None ->
  Mount os gt fuel refName mountPoint w
  = (Some (Error ErrMountPointInUse),
     record_event (MkdirAll mountPoint, None) w).
Proof.
  intros Hm Hr Hmk. unfold Mount.
  cbv beta iota zeta delta [isMounted gets fst] in Hm.
  run_M. rewrite Hr, Hmk. simpl_world. rewrite Hm. reflexivity.
Qed.



(** ** Unmounting at the first attempt *)

(** The outcome of [os.Remove] on the session file of a mount point. *)
Definition session_removal (os : Fate) (gt : GoTree) (mountPoint : string)
    (w : World) (h : list Event) : option Errno :=
  if bool_decide (is_Some (mounts w !! filepath.Base mountPoint))
  then errno_of os h (Remove (mountFile gt mountPoint))
  else Some ENOENT.

Lemma unmountWithOptions_first_ok (os : Fate) (gt : GoTree)
    (mountPoint : string) (force : bool) (w : World) :
  fst (isMounted mountPoint w) = true ->
  errno_of os (trace w ++ [(SysSync, None)]) (SysUnmount mountPoint 0) = None ->
  let rm := session_removal os gt mountPoint w
              (trace w ++ [(SysSync, None); (SysUnmount mountPoint 0, None)]) in
  exists w2,
    unmountWithOptions os gt mountPoint force w = (Ok tt, w2) /\
    trace w2
    = trace w ++ [(SysSync, None); (SysUnmount mountPoint 0, None);
                  (Remove (mountFile gt mountPoint), rm)] /\
    mtab w2 = remove_last_target (resolve w mountPoint) (mtab w) /\
    mounts w2
    = match rm with
      | None => delete (filepath.Base mountPoint) (mounts w)
      | Some _ => mounts w
      end /\
    clock w2 = clock w /\ refs w2 = refs w /\ layers w2 = layers w /\
    work w2 = work w.
Proof.
  intros Hm Hun. cbv zeta. unfold unmountWithOptions, session_removal.
  cbv beta iota zeta delta [isMounted gets fst] in Hm.
  unfold bind at 1. unfold isMounted, gets. rewrite Hm.
  cbv beta iota zeta delta [negb].
  assert (Hn : exists n, Z.to_nat (maxRetries_of force) = S n).
  { destruct force; eexists; reflexivity. }
  destruct Hn as [n ->]. cbn [unmount_loop]. cbn [Z.ltb Z.compare andb].
  rewrite andb_false_r.
  unfold remove_mountFile. run_M. simpl_world.
  rewrite Hun. simpl_world. unfold resolve. simpl_world.
  assert (Htr : (trace w ++ [(SysSync, None)]) ++ [(SysUnmount mountPoint 0, None)]
                = trace w ++ [(SysSync, None); (SysUnmount mountPoint 0, None)]).
  { rewrite <- app_assoc. reflexivity. }
  destruct (bool_decide (is_Some (mounts w !! filepath.Base mountPoint)));
    cbv beta; simpl_world; rewrite ?Htr.
  - case_fate; eexists; (split; [reflexivity|]); simpl_world;
      rewrite ?Htr, <- ?app_assoc; repeat split.
  - eexists; (split; [reflexivity|]); simpl_world;
      rewrite ?Htr, <- ?app_assoc; repeat split.
Qed.

Lemma unmount_loop_first_ok (os : Fate) (gt : GoTree) (force force' : bool)
    (mountPoint absPath absPath' : string) (maxRetries maxRetries' : Z)
    (n n' : nat) (lastErr lastErr' : option Z) (w : World) :
  errno_of os (trace w) (SysUnmount mountPoint 0) = None ->
  unmount_loop os gt force mountPoint absPath maxRetries (S n) 0 lastErr w
  = unmount_loop os gt force' mountPoint absPath' maxRetries' (S n') 0 lastErr' w.
Proof.
  intros Hun. cbn [unmount_loop]. cbn [Z.ltb Z.compare andb].
  rewrite !andb_false_r. run_M. rewrite Hun. reflexivity.
Qed.

Lemma unmountWithOptions_first_ok_force (os : Fate) (gt : GoTree)
    (mountPoint : string) (force : bool) (w : World) :
  fst (isMounted mountPoint w) = true ->
  errno_of os (trace w ++ [(SysSync, None)]) (SysUnmount mountPoint 0) = None ->
  unmountWithOptions os gt mountPoint force w
  = unmountWithOptions os gt mountPoint false w.
Proof.
  intros Hm Hun. unfold unmountWithOptions.
  cbv beta iota zeta delta [isMounted gets fst] in Hm.
  cbv beta iota zeta delta [bind isMounted gets syscall_Sync emit].
  rewrite Hm. cbv beta iota zeta delta [negb].
  assert (Hn : exists n, Z.to_nat (maxRetries_of force) = S n).
  { destruct force; eexists; reflexivity. }
  destruct Hn as [n ->].
  change (Z.to_nat (maxRetries_of false)) with 3%nat.
  apply unmount_loop_first_ok. exact Hun.
Qed.

(** X17: When the first plain unmount succeeds, [Unmount] and [UnmountForce]
    do the same: a flush, one unmount call and the removal of the
    session file, with no wait and no process killed; the entry mounted
    last on the mount point leaves the mount table. *)
Theorem unmount_first_attempt_ignores_force (os : Fate) (gt : GoTree)
    (mountPoint : string) (w : World) :
  fst (isMounted mountPoint w) = true ->
  errno_of os (trace w ++ [(SysSync, None)]) (SysUnmount mountPoint 0) = None ->
  UnmountForce os gt mountPoint w = Unmount os gt mountPoint w /\
  fst (Unmount os gt mountPoint w) = Ok tt /\
  (exists rm,
     events_since w (snd (Unmount os gt mountPoint w))
     = [(SysSync, None); (SysUnmount mountPoint 0, None);
        (Remove (mountFile gt mountPoint), rm)]) /\
  mtab (snd (Unmount os gt mountPoint w))
  = remove_last_target (resolve w mountPoint) (mtab w).
Proof.
  intros Hm Hun. unfold UnmountForce, Unmount.
  split; [apply unmountWithOptions_first_ok_force; assumption|].
  destruct (unmountWithOptions_first_ok os gt mountPoint false w Hm Hun)
    as (w3 & Hrun' & Htr' & Hmt' & _).
  rewrite Hrun'. cbn [fst snd].
  split; [reflexivity|split; [|exact Hmt']].
  eexists. apply events_since_app. exact Htr'.
Qed.

Lemma unmount_first_attempt_ignores_force_witness :
  UnmountForce fate_ok gt0 "/mnt/dev" w_mounted
  = Unmount fate_ok gt0 "/mnt/dev" w_mounted /\
  fst (Unmount fate_ok gt0 "/mnt/dev" w_mounted) = Ok tt /\
  (exists rm,
     events_since w_mounted (snd (Unmount fate_ok gt0 "/mnt/dev" w_mounted))
     = [(SysSync, None); (SysUnmount "/mnt/dev" 0, None);
        (Remove (mountFile gt0 "/mnt/dev"), rm)]) /\
  mtab (snd (Unmount fate_ok gt0 "/mnt/dev" w_mounted))
  = remove_last_target (resolve w_mounted "/mnt/dev") (mtab w_mounted).
Proof.
  apply (unmount_first_attempt_ignores_force fate_ok gt0 "/mnt/dev" w_mounted);
    vm_compute; reflexivity.
Defined.

(** ** A mount and its unmount *)



(** ** A mount whose session record cannot be written *)




(** ** The mounted test when the host gives no answer *)

(** The mounted repository on a host whose mount table cannot be
    read. *)
Definition w_mounted_unreadable : World :=
  mkWorld (refs w_mounted) (layers w_mounted) (work w_mounted)
          (mounts w_mounted) (mtab w_mounted) false (cwd w_mounted)
          (clock w_mounted) (trace w_mounted).

(** The mounted repository for a process whose working directory
    cannot be determined. *)
Definition w_mounted_no_cwd : World :=
  mkWorld (refs w_mounted) (layers w_mounted) (work w_mounted)
          (mounts w_mounted) (mtab w_mounted) true None
          (clock w_mounted) (trace w_mounted).

(** X20: When the mount table cannot be read, every mount point tests as not
    mounted, whatever is mounted: unmounting fails with [NotMounted]
    before any call is made, and [Mount] never answers
    [AlreadyMounted]. *)
Theorem unreadable_mount_table_means_not_mounted (os : Fate) (gt : GoTree)
    (fuel : nat) (refName mountPoint : string) (force : bool) (w : World) :
  procfs w = false ->
  fst (isMounted mountPoint w) = false /\
  unmountWithOptions os gt mountPoint force w = (Error ErrNotMounted, w) /\
  kind_of ErrNotMounted = Kind.NotMounted /\
  fst (Mount os gt fuel refName mountPoint w)
  <> Some (Error ErrMountPointInUse).
Proof.
  intros Hp.
  assert (Hm : fst (isMounted mountPoint w) = false).
  { unfold isMounted, gets. cbn [fst]. rewrite Hp. reflexivity. }
  split; [exact Hm|].
  split; [apply unmountWithOptions_not_mounted; exact Hm|].
  split; [reflexivity|].
  unfold Mount, buildLowerDirs. run_M.
  destruct (refs w !! refName) as [ref|]; [|discriminate].
  case_fate; [discriminate|]. simpl_world. rewrite Hp.
  set (w1 := record_event (MkdirAll mountPoint, None) w).
  assert (Hloop : forall n dirs r,
            snd (buildLowerDirs_loop gt n dirs r w1) = w1).
  { induction n as [|n IH]; intros dirs r; [reflexivity|].
    simpl. destruct (String.eqb (Parent r) ""); [reflexivity|].
    run_M. destruct (refs w1 !! Parent r); [apply IH|reflexivity]. }
  specialize (Hloop fuel [] ref).
  destruct (buildLowerDirs_loop gt fuel [] ref w1) as [[lowerDirs|] w2];
    simpl in Hloop; subst w2; [|discriminate].
  case_fate; [discriminate|]. simpl_world.
  case_fate; simpl_world.
  - case_fate; simpl_world; discriminate.
  - case_fate; simpl_world; discriminate.
Qed.

Lemma unreadable_mount_table_means_not_mounted_witness :
  fst (isMounted "/mnt/dev" w_mounted_unreadable) = false /\
  unmountWithOptions fate_ok gt0 "/mnt/dev" true w_mounted_unreadable
  = (Error ErrNotMounted, w_mounted_unreadable) /\
  kind_of ErrNotMounted = Kind.NotMounted /\
  fst (Mount fate_ok gt0 2 "base" "/mnt/dev" w_mounted_unreadable)
  <> Some (Error ErrMountPointInUse).
Proof.
  apply (unreadable_mount_table_means_not_mounted fate_ok gt0 2 "base"
           "/mnt/dev" true w_mounted_unreadable).
  reflexivity.
Defined.

(** X21: When the working directory cannot be determined, the absolute path
    of a relative mount point is the empty string, which every text
    contains: the mount point tests as mounted whatever the mount table
    holds, [Mount] of an existing ref answers [AlreadyMounted], and
    unmounting goes on to its attempts instead of answering
    [NotMounted]. *)
Theorem relative_mount_point_without_cwd_is_mounted (os : Fate) (gt : GoTree)
    (fuel : nat) (refName mountPoint : string) (force : bool) (w : World)
    (ref : Ref) :
  procfs w = true ->
  cwd w = None ->
  filepath.IsAbs mountPoint = false ->
  refs w !! refName = Some ref ->
  errno_of os (trace w) (MkdirAll mountPoint) = None ->
  fst (isMounted mountPoint w) = true /\
  fst (Mount os gt fuel refName mountPoint w)
  = Some (Error ErrMountPointInUse) /\
  (fst (unmountWithOptions os gt mountPoint force w) = Ok tt \/
   exists last, fst (unmountWithOptions os gt mountPoint force w)
                = Error (ErrUnmountRetries last)).
Proof.
  intros Hp Hc Hrel Hr Hmk.
  assert (Hm : fst (isMounted mountPoint w) = true).
  { unfold isMounted, gets, filepath.Abs. cbn [fst].
    rewrite Hp, Hc, Hrel. apply Contains_nil. }
  split; [exact Hm|]. split.
  - rewrite (Mount_on_mounted os gt fuel refName mountPoint w ref Hm Hr Hmk).
    reflexivity.
  - destruct (unmountWithOptions_run os gt mountPoint force w Hm)
      as (evs & res & w' & Hrun & _ & Hlr & _).
    rewrite Hrun. cbn [fst]. eapply LoopRun_result. exact Hlr.
Qed.

Lemma relative_mount_point_without_cwd_is_mounted_witness :
  fst (isMounted "elsewhere" w_mounted_no_cwd) = true /\
  fst (Mount fate_ok gt0 2 "base" "elsewhere" w_mounted_no_cwd)
  = Some (Error ErrMountPointInUse) /\
  (fst (unmountWithOptions fate_ok gt0 "elsewhere" false w_mounted_no_cwd)
   = Ok tt \/
   exists last,
     fst (unmountWithOptions fate_ok gt0 "elsewhere" false w_mounted_no_cwd)
     = Error (ErrUnmountRetries last)).
Proof.
  apply (relative_mount_point_without_cwd_is_mounted fate_ok gt0 2 "base"
           "elsewhere" false w_mounted_no_cwd root_ref);
    vm_compute; reflexivity.
Defined.

(** ** Deleting a mounted ref *)





(** ** Two mount points with one base name *)



(** ** The detaching unmount *)

(** A detaching unmount of [mp]. *)
Definition is_detach (mp : string) (e : Event) : bool :=
  match e with
  | (SysUnmount target flags, _) => String.eqb target mp && (flags =? MNT_DETACH)
  | _ => false
  end.

Definition failed (e : Event) : bool :=
  match snd e with
  | Some _ => true
  | None => false
  end.

Lemma filter_nothing {A} (f g : A -> bool) (l : list A) :
  Forall (fun e => g e = true) l ->
  (forall e, g e = true -> f e = false) ->
  List.filter f l = [].
Proof.
  intros Hall Hfg. induction Hall as [|e l He _ IH]; [reflexivity|].
  simpl. rewrite (Hfg e He). exact IH.
Qed.

Lemma filter_backoff (f : Event -> bool) (i : Z) :
  (forall d, f (Sleep d, None) = false) -> f (SysSync, None) = false ->
  List.filter f (backoff i) = [].
Proof.
  intros Hs Hy. unfold backoff. destruct (0 <? i); [|reflexivity].
  simpl. rewrite Hs, Hy. reflexivity.
Qed.

Lemma filter_kills (f : Event -> bool) (force : bool) (i : Z)
    (kills : list Event) :
  (forall e, is_exec_or_sleep e = true -> f e = false) ->
  kills_ok force i kills -> List.filter f kills = [].
Proof.
  intros Hf [Hall _]. apply (filter_nothing f is_exec_or_sleep); assumption.
Qed.

Lemma is_attempt_exec_or_sleep (mp : string) (e : Event) :
  is_exec_or_sleep e = true -> is_attempt mp e = false.
Proof. destruct e as [[] ?]; simpl; congruence. Qed.

Lemma is_detach_exec_or_sleep (mp : string) (e : Event) :
  is_exec_or_sleep e = true -> is_detach mp e = false.
Proof. destruct e as [[] ?]; simpl; congruence. Qed.

(** The runs of the loop whose last iteration has index
    [maxRetries - 1]: either a plain unmount succeeds and no detaching
    one is made, or every one of the [n] plain unmounts fails and one
    detaching unmount follows, whose outcome decides the result. *)
Lemma LoopRun_detach (force : bool) (mp mf : string) (maxRetries : Z)
    (n : nat) (i : Z) (lastErr : option Z) (evs : list Event)
    (res : result unit) :
  LoopRun force mp mf maxRetries n i lastErr evs res ->
  maxRetries = i + Z.of_nat n ->
  (0 < n)%nat ->
  (List.filter (is_detach mp) evs = [] /\ res = Ok tt /\
   (length (List.filter (is_attempt mp) evs) <= n)%nat /\
   exists fails,
     List.filter (is_attempt mp) evs = fails ++ [(SysUnmount mp 0, None)] /\
     Forall (fun e => failed e = true) fails)
  \/
  (exists r,
     List.filter (is_detach mp) evs = [(SysUnmount mp MNT_DETACH, r)] /\
     length (List.filter (is_attempt mp) evs) = n /\
     Forall (fun e => failed e = true) (List.filter (is_attempt mp) evs) /\
     (res = Ok tt <-> r = None) /\
     (r <> None -> exists last, res = Error (ErrUnmountRetries (Some last)))).
Proof.
  assert (Hba : forall j, List.filter (is_attempt mp) (backoff j) = [])
    by (intros j; apply filter_backoff; reflexivity).
  assert (Hbd : forall j, List.filter (is_detach mp) (backoff j) = [])
    by (intros j; apply filter_backoff; reflexivity).
  assert (Hka : forall j k, kills_ok force j k ->
                            List.filter (is_attempt mp) k = [])
    by (intros j k; apply filter_kills, is_attempt_exec_or_sleep).
  assert (Hkd : forall j k, kills_ok force j k ->
                            List.filter (is_detach mp) k = [])
    by (intros j k; apply filter_kills, is_detach_exec_or_sleep).
  assert (Hp : is_attempt mp (SysUnmount mp 0, None) = true
               /\ forall e, is_attempt mp (SysUnmount mp 0, Some e) = true).
  { simpl. rewrite String.eqb_refl. auto. }
  destruct Hp as [Hp1 Hp2].
  assert (Hd : forall r, is_detach mp (SysUnmount mp MNT_DETACH, r) = true
                         /\ is_attempt mp (SysUnmount mp MNT_DETACH, r) = false
                         /\ is_detach mp (SysUnmount mp 0, r) = false).
  { intros r. simpl. rewrite String.eqb_refl. auto. }
  induction 1 as
    [ i lastErr
    | n i lastErr kills rm Hk
    | n i lastErr kills e evs res Hk Hnl Hrun IH
    | n i lastErr kills e rm Hk Hl
    | n i lastErr kills e e' evs res Hk Hl Hrun IH ]; intros Hmax Hpos.
  - lia.
  - left. rewrite !List.filter_app, Hba, Hbd, (Hka _ _ Hk), (Hkd _ _ Hk).
    cbn [List.filter app]. rewrite Hp1. destruct (Hd None) as (_ & _ & ->).
    cbn [is_attempt is_detach]. split; [reflexivity|]. split; [reflexivity|].
    split; [simpl; lia|]. exists []. split; [reflexivity|constructor].
  - rewrite !List.filter_app, Hba, Hbd, (Hka _ _ Hk), (Hkd _ _ Hk).
    cbn [List.filter app]. rewrite Hp2. destruct (Hd (Some e)) as (_ & _ & ->).
    destruct n as [|n].
    { exfalso. apply Hnl. lia. }
    destruct IH as [(Hnd & Hres & Hlen & fails & Hf & Hall)
                   |(r & Hdt & Hlen & Hall & Hres)]; [lia|lia| |].
    + left. split; [exact Hnd|]. split; [exact Hres|].
      split; [simpl; lia|].
      exists ((SysUnmount mp 0, Some e) :: fails). rewrite Hf.
      split; [reflexivity|]. constructor; [reflexivity|exact Hall].
    + right. exists r. split; [exact Hdt|]. split; [simpl; lia|].
      split; [|exact Hres]. constructor; [reflexivity|exact Hall].
  - right. exists None.
    rewrite !List.filter_app, Hba, Hbd, (Hka _ _ Hk), (Hkd _ _ Hk).
    cbn [List.filter app]. rewrite Hp2.
    destruct (Hd (Some e)) as (_ & _ & ->).
    destruct (Hd None) as (-> & -> & _). cbn [is_attempt is_detach].
    assert (n = O) by lia. subst n.
    split; [reflexivity|]. split; [reflexivity|].
    split; [repeat constructor|]. split; [tauto|congruence].
  - right. exists (Some e').
    rewrite !List.filter_app, Hba, Hbd, (Hka _ _ Hk), (Hkd _ _ Hk).
    cbn [List.filter app]. rewrite Hp2.
    destruct (Hd (Some e)) as (_ & _ & ->).
    destruct (Hd (Some e')) as (-> & -> & _).
    assert (n = O) by lia. subst n. inversion Hrun; subst.
    split; [reflexivity|]. split; [reflexivity|].
    split; [repeat constructor|]. split; [split; discriminate|].
    intros _. exists e. reflexivity.
Qed.

(** X24: The detaching unmount is the last resort: an unmount of a mounted
    point either succeeds by a plain unmount call, after which no
    detaching call is made, or it has made all its 3 plain calls (5
    under force), every one failed, and then makes exactly one
    detaching call, whose outcome alone decides between success and the
    [UnmountFailed] error. *)
Theorem detach_is_last_resort (os : Fate) (gt : GoTree) (w : World)
    (mountPoint : string) (force : bool) :
  fst (isMounted mountPoint w) = true ->
  let out := unmountWithOptions os gt mountPoint force w in
  let evs := events_since w (snd out) in
  (List.filter (is_detach mountPoint) evs = [] /\ fst out = Ok tt /\
   exists fails,
     List.filter (is_attempt mountPoint) evs
     = fails ++ [(SysUnmount mountPoint 0, None)] /\
     Forall (fun e => failed e = true) fails)
  \/
  (exists r,
     List.filter (is_detach mountPoint) evs
     = [(SysUnmount mountPoint MNT_DETACH, r)] /\
     length (List.filter (is_attempt mountPoint) evs)
     = (if force then 5 else 3)%nat /\
     Forall (fun e => failed e = true)
       (List.filter (is_attempt mountPoint) evs) /\
     (fst out = Ok tt <-> r = None) /\
     (r <> None ->
      exists last, fst out = Error (ErrUnmountRetries (Some last)) /\
                   kind_of (ErrUnmountRetries (Some last)) = Kind.UnmountFailed)).
Proof.
  intros Hm. cbv zeta.
  destruct (unmountWithOptions_run os gt mountPoint force w Hm)
    as (evs & res & w' & Hrun & Htr & Hlr & _).
  rewrite Hrun. cbn [fst snd]. rewrite (events_since_app w w' _ Htr).
  cbn [List.filter is_detach is_attempt].
  destruct (LoopRun_detach _ _ _ _ _ _ _ _ _ Hlr) as
    [(Hnd & Hres & _ & fails & Hf & Hall)|(r & Hdt & Hlen & Hall & Hres & Herr)].
  - destruct force; reflexivity.
  - destruct force; simpl; lia.
  - left. split; [exact Hnd|]. split; [exact Hres|]. exists fails. auto.
  - right. exists r. split; [exact Hdt|].
    split; [rewrite Hlen; destruct force; reflexivity|].
    split; [exact Hall|]. split; [exact Hres|].
    intros Hr. destruct (Herr Hr) as [last ->]. exists last. auto.
Qed.

Lemma detach_is_last_resort_witness :
  let out := unmountWithOptions fate_busy gt0 "/mnt/dev" true w_mounted in
  let evs := events_since w_mounted (snd out) in
  (List.filter (is_detach "/mnt/dev") evs = [] /\ fst out = Ok tt /\
   exists fails,
     List.filter (is_attempt "/mnt/dev") evs
     = fails ++ [(SysUnmount "/mnt/dev" 0, None)] /\
     Forall (fun e => failed e = true) fails)
  \/
  (exists r,
     List.filter (is_detach "/mnt/dev") evs
     = [(SysUnmount "/mnt/dev" MNT_DETACH, r)] /\
     length (List.filter (is_attempt "/mnt/dev") evs)
     = (if true then 5 else 3)%nat /\
     Forall (fun e => failed e = true)
       (List.filter (is_attempt "/mnt/dev") evs) /\
     (fst out = Ok tt <-> r = None) /\
     (r <> None ->
      exists last, fst out = Error (ErrUnmountRetries (Some last)) /\
                   kind_of (ErrUnmountRetries (Some last)) = Kind.UnmountFailed)).
Proof.
  apply (detach_is_last_resort fate_busy gt0 w_mounted "/mnt/dev" true).
  vm_compute. reflexivity.
Defined.

(** ** Commit *)



(** ** The metadata of a new child *)





(** ** The unit of a size *)

Lemma wrap64_small (x : Z) : - 2 ^ 63 <= x < 2 ^ 63 -> wrap64 x = x.
Proof. intros H. unfold wrap64. rewrite Z.mod_small; lia. Qed.

(** The loop of [formatBytes] from a state in which [div] is a power of
    1024 and [n] is the quotient of [b] by [div]. *)
Lemma formatBytes_loop_spec (b : Z) (fuel : nat) :
  forall n div exp,
    0 <= exp -> div = 1024 ^ (exp + 1) -> 1 <= n ->
    div * n <= b < div * (n + 1) -> b < 2 ^ 63 ->
    n < 1024 ^ Z.of_nat fuel ->
    exists k,
      0 <= k /\
      formatBytes_loop fuel n div exp = Some (1024 ^ (exp + 1 + k), exp + k) /\
      1024 ^ (exp + 1 + k) <= b < 1024 ^ (exp + 2 + k).
Proof.
  induction fuel as [|fuel IH]; intros n div exp Hexp Hdiv Hn Hb Hmax Hfuel.
  - simpl in Hfuel. lia.
  - assert (Hpos : 0 < div) by (subst div; apply Z.pow_pos_nonneg; lia).
    assert (Hnext : div * 1024 = 1024 ^ (exp + 2)).
    { subst div. replace (exp + 2) with (Z.succ (exp + 1)) by lia.
      rewrite Z.pow_succ_r by lia. lia. }
    cbn [formatBytes_loop]. destruct (1024 <=? n) eqn:Hge.
    + apply Z.leb_le in Hge.
      assert (Hq : Z.quot n 1024 = n / 1024) by (apply Z.quot_div_nonneg; lia).
      pose proof (Z.div_mod n 1024 ltac:(lia)) as Hdm.
      pose proof (Z.mod_pos_bound n 1024 ltac:(lia)) as Hmod.
      assert (Hw : wrap64 (div * 1024) = div * 1024).
      { apply wrap64_small. nia. }
      rewrite Hq, Hw.
      destruct (IH (n / 1024) (div * 1024) (exp + 1)) as (k & Hk & Hrun & Hbound).
      * lia.
      * rewrite Hnext. f_equal. lia.
      * lia.
      * nia.
      * exact Hmax.
      * rewrite Nat2Z.inj_succ, Z.pow_succ_r in Hfuel by lia. lia.
      * exists (k + 1). split; [lia|]. rewrite Hrun.
        replace (exp + 1 + 1 + k) with (exp + 1 + (k + 1)) in * by lia.
        replace (exp + 1 + k) with (exp + (k + 1)) by lia.
        replace (exp + 1 + 2 + k) with (exp + 2 + (k + 1)) in * by lia.
        split; [reflexivity|exact Hbound].
    + apply Z.leb_gt in Hge. exists 0. split; [lia|].
      rewrite !Z.add_0_r. split; [subst div; reflexivity|].
      rewrite <- Hnext, <- Hdiv. nia.
Qed.

(** X27: [formatBytes] returns on every [int64] and never indexes outside
    ["KMGTPE"]: below 1024 (negative sizes included) it prints the
    number of bytes; from 1024 on it divides by the power of 1024 that
    brings the size into the range from 1 to 1024, computed without
    overflow, and names the unit after it. *)
Theorem formatBytes_picks_unit (fuel : nat) (b : Z) :
  (6 <= fuel)%nat ->
  - 2 ^ 63 <= b < 2 ^ 63 ->
  (b < 1024 /\ formatBytes fuel b = Some (PlainBytes (pretty b +:+ " B")))
  \/
  (exists k letter,
     0 <= k <= 5 /\
     String.get (Z.to_nat k) "KMGTPE" = Some letter /\
     formatBytes fuel b = Some (Scaled b (1024 ^ (k + 1)) letter) /\
     1024 ^ (k + 1) <= b < 1024 ^ (k + 2)).
Proof.
  intros Hfuel Hb. unfold formatBytes. destruct (b <? 1024) eqn:Hlt.
  - apply Z.ltb_lt in Hlt. left. auto.
  - apply Z.ltb_ge in Hlt. right.
    assert (Hq : Z.quot b 1024 = b / 1024) by (apply Z.quot_div_nonneg; lia).
    pose proof (Z.div_mod b 1024 ltac:(lia)) as Hdm.
    pose proof (Z.mod_pos_bound b 1024 ltac:(lia)) as Hmod.
    destruct (formatBytes_loop_spec b fuel (b / 1024) 1024 0)
      as (k & Hk & Hrun & Hbound).
    + lia.
    + reflexivity.
    + lia.
    + lia.
    + lia.
    + assert (1024 ^ 6 <= 1024 ^ Z.of_nat fuel)
        by (apply Z.pow_le_mono_r; lia).
      assert (b / 1024 < 1024 ^ 6); [|lia].
      change (1024 ^ 6) with 1152921504606846976. lia.
    + rewrite Hq, Hrun. rewrite !Z.add_0_l in *.
      assert (Hk5 : k <= 5).
      { destruct (Z.le_gt_cases k 5) as [H|H]; [exact H|]. exfalso.
        assert (1024 ^ 7 <= 1024 ^ (1 + k)) by (apply Z.pow_le_mono_r; lia).
        change (1024 ^ 7) with 1180591620717411303424 in *. lia. }
      assert (Hin : (0 <=? k) && (k <? 6) = true).
      { apply andb_true_iff. split; [apply Z.leb_le|apply Z.ltb_lt]; lia. }
      rewrite Hin.
      assert (Hcases : k = 0 \/ k = 1 \/ k = 2 \/ k = 3 \/ k = 4 \/ k = 5) by lia.
      replace (k + 1) with (1 + k) by lia. replace (k + 2) with (2 + k) by lia.
      exists k.
      destruct Hcases as [-> | [-> | [-> | [-> | [-> | ->]]]]];
        eexists; (split; [lia|]); (split; [reflexivity|]);
        (split; [reflexivity|exact Hbound]).
Qed.

Lemma formatBytes_picks_unit_witness :
  (1536 < 1024 /\ formatBytes 6 1536 = Some (PlainBytes (pretty 1536 +:+ " B")))
  \/
  (exists k letter,
     0 <= k <= 5 /\
     String.get (Z.to_nat k) "KMGTPE" = Some letter /\
     formatBytes 6 1536 = Some (Scaled 1536 (1024 ^ (k + 1)) letter) /\
     1024 ^ (k + 1) <= 1536 < 1024 ^ (k + 2)).
Proof.
  apply (formatBytes_picks_unit 6 1536); lia.
Defined.

(** The largest [int64] is printed in exbibytes. *)
Example formatBytes_max :
  formatBytes 6 (2 ^ 63 - 1)
  = Some (Scaled (2 ^ 63 - 1) (1024 ^ 6) "E"%char).
Proof. vm_compute. reflexivity. Qed.

(** ** A creation and its deletion *)








(** ** A session record that outlives its mount *)

(** An operating system on which the session files cannot be
    removed. *)
Definition fate_sticky_sessions : Fate :=
  mkFate (fun _ c => match c with
                     | Remove path =>
                         if strings.HasPrefix path "/var/lib/gotree/mounts/"
                         then Some EPERM else None
                     | _ => None
                     end)
         (fun _ _ => "").

(** X29: The unmount ignores the outcome of the removal of the session
    file: when the first unmount call succeeds and the removal fails,
    [Unmount] still reports success, the mount has left the mount table
    and the session record stays, so that the ref it references still
    tests as mounted. *)
Theorem unmount_ignores_session_removal_failure (os : Fate) (gt : GoTree)
    (mountPoint : string) (force : bool) (w : World)
    (info : gmap string string) (err : Errno) :
  fst (isMounted mountPoint w) = true ->
  mounts w !! filepath.Base mountPoint = Some info ->
  errno_of os (trace w ++ [(SysSync, None)]) (SysUnmount mountPoint 0) = None ->
  errno_of os (trace w ++ [(SysSync, None); (SysUnmount mountPoint 0, None)])
    (Remove (mountFile gt mountPoint)) = Some err ->
  let out := unmountWithOptions os gt mountPoint force w in
  fst out = Ok tt /\
  mtab (snd out) = remove_last_target (resolve w mountPoint) (mtab w) /\
  mounts (snd out) = mounts w /\
  fst (IsMountedRef (info_ref info) (snd out)) = Ok true.
Proof.
  intros Hm Hinfo Hun Hrm. cbv zeta.
  destruct (unmountWithOptions_first_ok os gt mountPoint force w Hm Hun)
    as (w2 & Hrun & _ & Hmt & Hmo & _).
  rewrite Hrun. cbn [fst snd]. unfold session_removal in Hmo.
  rewrite Hinfo in Hmo.
  rewrite bool_decide_eq_true_2 in Hmo by (eexists; reflexivity).
  rewrite Hrm in Hmo.
  split; [reflexivity|]. split; [exact Hmt|]. split; [exact Hmo|].
  rewrite IsMountedRef_true; [reflexivity|].
  exists (filepath.Base mountPoint), info. rewrite Hmo. auto.
Qed.

Lemma unmount_ignores_session_removal_failure_witness :
  let out := unmountWithOptions fate_sticky_sessions gt0 "/mnt/dev" false
               w_mounted in
  fst out = Ok tt /\
  mtab (snd out)
  = remove_last_target (resolve w_mounted "/mnt/dev") (mtab w_mounted) /\
  mounts (snd out) = mounts w_mounted /\
  fst (IsMountedRef (info_ref (session_info "dev" "/mnt/dev")) (snd out))
  = Ok true.
Proof.
  apply (unmount_ignores_session_removal_failure fate_sticky_sessions gt0
           "/mnt/dev" false w_mounted (session_info "dev" "/mnt/dev") EPERM);
    vm_compute; reflexivity.
Defined.

(** ** Opening a repository *)

(** The directories of a repository, in the order [NewGoTree] makes
    them. *)
Definition repo_dirs (repoPath : string) : list string :=
  [filepath.Join [repoPath; "refs"]; filepath.Join [repoPath; "layers"];
   filepath.Join [repoPath; "work"]; filepath.Join [repoPath; "mounts"]].

Definition made (dirs : list string) : list Event :=
  map (fun d => (MkdirAll d, None)) dirs.

Lemma NewGoTree_loop_run (os : Fate) (dirs : list string) :
  forall w,
    let out := NewGoTree_loop os dirs w in
    refs (snd out) = refs w /\ layers (snd out) = layers w /\
    work (snd out) = work w /\ mounts (snd out) = mounts w /\
    mtab (snd out) = mtab w /\
    match fst out with
    | None => trace (snd out) = trace w ++ made dirs
    | Some e =>
        exists k dir err,
          dirs !! k = Some dir /\
          e = ErrCreateDirectory dir (ErrPathError dir err) /\
          trace (snd out)
          = trace w ++ made (take k dirs) ++ [(MkdirAll dir, Some err)]
    end.
Proof.
  induction dirs as [|d dirs IH]; intros w; cbv zeta.
  - simpl. rewrite app_nil_r. repeat split.
  - cbn [NewGoTree_loop]. run_M. case_fate.
    + simpl_world. repeat (split; [reflexivity|]).
      exists O, d. eexists. repeat split.
    + specialize (IH (record_event (MkdirAll d, None) w)). cbv zeta in IH.
      destruct (NewGoTree_loop os dirs (record_event (MkdirAll d, None) w))
        as [[e|] w']; cbn [fst snd] in *; simpl_world;
        destruct IH as (H1 & H2 & H3 & H4 & H5 & H6);
        repeat (split; [assumption|]).
      * destruct H6 as (k & dir & err & Hk & He & Htr).
        exists (S k), dir, err. split; [exact Hk|]. split; [exact He|].
        rewrite Htr, <- app_assoc. reflexivity.
      * rewrite H6, <- app_assoc. reflexivity.
Qed.

(** X30: [NewGoTree] makes the directories [refs], [layers], [work] and
    [mounts] of the repository in that order and stops at the first
    that cannot be made, which its error names; the directories made
    before it stay.  It reads and changes nothing else, and on success
    returns a handle on the path it was given. *)
Theorem NewGoTree_stops_at_first_failure (os : Fate) (repoPath : string)
    (w : World) :
  let out := NewGoTree os repoPath w in
  refs (snd out) = refs w /\ layers (snd out) = layers w /\
  work (snd out) = work w /\ mounts (snd out) = mounts w /\
  mtab (snd out) = mtab w /\
  match fst out with
  | XOk gt =>
      gt = mkGoTree repoPath /\
      events_since w (snd out) = made (repo_dirs repoPath)
  | XError e =>
      exists k dir err,
        repo_dirs repoPath !! k = Some dir /\
        e = ErrCreateDirectory dir (ErrPathError dir err) /\
        events_since w (snd out)
        = made (take k (repo_dirs repoPath)) ++ [(MkdirAll dir, Some err)]
  end.
Proof.
  cbv zeta. unfold NewGoTree. fold (repo_dirs repoPath).
  pose proof (NewGoTree_loop_run os (repo_dirs repoPath) w) as H.
  cbv zeta in H. unfold bind.
  destruct (NewGoTree_loop os (repo_dirs repoPath) w) as [[e|] w'];
    cbn [fst snd ret] in *;
    destruct H as (H1 & H2 & H3 & H4 & H5 & H6);
    repeat (split; [assumption|]).
  - destruct H6 as (k & dir & err & Hk & He & Htr).
    exists k, dir, err. split; [exact Hk|]. split; [exact He|].
    apply events_since_app. exact Htr.
  - split; [reflexivity|]. apply events_since_app. exact H6.
Qed.
